(** * Resource governance of the Starlark interpreter

    A shallow embedding of the resource monitor ([Monitor]), the static
    step estimator ([EstimateSteps], [EstimateIterSteps]), the safety
    flags, the allocation-accounting wrapper and the final comparisons of
    the [startest] measurement harness, with the properties the governance
    layer is specified to have.

    Go's fixed-width unsigned integers are integers in [Z] whose
    wrap-around is written out: [uint64] wraps modulo [2^64] and [uintptr]
    modulo [2^w], where [w] is the pointer width of the target. *)

From Stdlib Require Import ZArith List String Bool Lia DecimalString.
Import ListNotations.

Local Open Scope Z_scope.

(* ===================================================================== *)
(** * Machine integers *)
(* ===================================================================== *)

(** The width of [uintptr] depends on the target Go compiles for. *)
Inductive ptr_width : Type := W32 | W64.

Definition uintptr_bits (p : ptr_width) : Z :=
  match p with W32 => 32 | W64 => 64 end.

Definition uintptr_modulus (p : ptr_width) : Z := 2 ^ uintptr_bits p.
Definition uint64_modulus : Z := 2 ^ 64.

Definition MaxUintptr (p : ptr_width) : Z := uintptr_modulus p - 1.
Definition MaxUint64 : Z := uint64_modulus - 1.

(** Conversions [uint64(x)] and [uintptr(x)]: truncation to the width. *)
Definition to_uint64 (z : Z) : Z := z mod uint64_modulus.
Definition to_uintptr (p : ptr_width) (z : Z) : Z := z mod uintptr_modulus p.

Definition is_uint64 (z : Z) : Prop := 0 <= z < uint64_modulus.
Definition is_uintptr (p : ptr_width) (z : Z) : Prop := 0 <= z < uintptr_modulus p.

(** [x + y], [x - y], [x * y] and unary [-x] on [uint64] and [uintptr]. *)
Definition add64 (x y : Z) : Z := to_uint64 (x + y).
Definition sub64 (x y : Z) : Z := to_uint64 (x - y).
Definition mul64 (x y : Z) : Z := to_uint64 (x * y).

Definition addptr (p : ptr_width) (x y : Z) : Z := to_uintptr p (x + y).
Definition subptr (p : ptr_width) (x y : Z) : Z := to_uintptr p (x - y).
Definition negptr (p : ptr_width) (x : Z) : Z := to_uintptr p (- x).

(** [atomic.AddUintptr(&x, delta)]: the new value of [x]. *)
Definition atomic_AddUintptr (p : ptr_width) (x delta : Z) : Z := addptr p x delta.

(* ===================================================================== *)
(** * Errors *)
(* ===================================================================== *)

(** A Go [error] built by [errors.New] or [fmt.Errorf]: it is known by its
    message, which [Error] returns. *)
Record error : Type := errors_New { Error : string }.

(** The verb [%d] of [fmt] at an unsigned integer. *)
Definition fmt_d (z : Z) : string := NilZero.string_of_int (Z.to_int z).

Definition error_eqb (e1 e2 : error) : bool := String.eqb (Error e1) (Error e2).

(* ===================================================================== *)
(** * The resource monitor *)
(* ===================================================================== *)

Definition UINTPTRS_PER_UNIT : Z := 4.

(** [UNIT_SIZE = reflect.TypeOf(uintptr(0)).Size() * UINTPTRS_PER_UNIT]. *)
Definition UNIT_SIZE (p : ptr_width) : Z := (uintptr_bits p / 8) * UINTPTRS_PER_UNIT.

(** The value the flag [memcap] has when the command line does not set it. *)
Definition DefaultLocationsCap_default : Z := Z.shiftl 1 15 - 1.

Record Monitor : Type := mkMonitor {
  (* steps counts the number of execution steps taken *)
  steps : Z;          (* uint64 *)
  maxSteps : Z;       (* uint64 *)
  (* locationsUsed counts the abstract memory units claimed *)
  locationsUsed : Z;  (* uintptr *)
  locationsCap : Z;   (* uintptr *)
  (* cache of the latest error *)
  err : option error
}.

(** The zero value of the struct, as [new(Monitor)] gives it. *)
Definition zeroMonitor : Monitor := mkMonitor 0 0 0 0 None.

Definition set_steps (v : Z) (mon : Monitor) : Monitor :=
  mkMonitor v (maxSteps mon) (locationsUsed mon) (locationsCap mon) (err mon).
Definition set_maxSteps (v : Z) (mon : Monitor) : Monitor :=
  mkMonitor (steps mon) v (locationsUsed mon) (locationsCap mon) (err mon).
Definition set_locationsUsed (v : Z) (mon : Monitor) : Monitor :=
  mkMonitor (steps mon) (maxSteps mon) v (locationsCap mon) (err mon).
Definition set_locationsCap (v : Z) (mon : Monitor) : Monitor :=
  mkMonitor (steps mon) (maxSteps mon) (locationsUsed mon) v (err mon).
Definition set_err (e : option error) (mon : Monitor) : Monitor :=
  mkMonitor (steps mon) (maxSteps mon) (locationsUsed mon) (locationsCap mon) e.

(** Every field holds a value of its Go type. *)
Definition Monitor_wf (p : ptr_width) (mon : Monitor) : Prop :=
  is_uint64 (steps mon) /\ is_uint64 (maxSteps mon) /\
  is_uintptr p (locationsUsed mon) /\ is_uintptr p (locationsCap mon).

Definition err_too_many_steps : error := errors_New "too many steps".

Definition err_too_much_memory (delta : Z) : error :=
  errors_New ("too much memory, failed to allocate " ++ fmt_d delta ++ " extra locs").

Definition err_steps_in_use : error :=
  errors_New "cannot change execution steps of a monitor already in use".

Definition err_memcap_in_use : error :=
  errors_New "cannot change memory cap of a monitor already in use".

(** An error is a configuration error when it is one of the two the cap
    setters return; such an error is returned and never stored. *)
Definition is_config_error (e : error) : bool :=
  error_eqb e err_steps_in_use || error_eqb e err_memcap_in_use.

Section MonitorOps.

Variable p : ptr_width.

(** [DefaultLocationsCap] is a command-line flag: its value is an input. *)
Definition initMonitor (DefaultLocationsCap : Z) (mon : Monitor) : Monitor :=
  let mon1 :=
    if locationsCap mon =? 0 then
      let dflt := to_uintptr p DefaultLocationsCap in
      if negb (dflt =? 0) then set_locationsCap dflt mon
      else set_locationsCap (subptr p (locationsCap mon) 1) mon (* MaxUintptr *)
    else mon in
  if maxSteps mon1 =? 0 then set_maxSteps (sub64 (maxSteps mon1) 1) mon1 (* MaxUint64 *)
  else mon1.

Definition CheckUsage (mon : Monitor) : option error * Monitor :=
  match err mon with
  | Some e => (Some e, mon)
  | None =>
      if steps mon >=? maxSteps mon then
        let mon' := set_err (Some err_too_many_steps) mon in
        (err mon', mon')
      else (None, mon)
  end.

Definition ExecutionSteps (mon : Monitor) : Z := steps mon.

Definition InUse (mon : Monitor) : bool := steps mon >? 0.

Definition SetMaxExecutionSteps (max : Z) (mon : Monitor) : option error * Monitor :=
  if InUse mon then (Some err_steps_in_use, mon)
  else (None, set_maxSteps max mon).

Definition countStep (mon : Monitor) : Monitor :=
  set_steps (add64 (steps mon) 1) mon.

Definition LocationsUsed (mon : Monitor) : Z := locationsUsed mon.

Definition SetLocationsCap (max : Z) (mon : Monitor) : option error * Monitor :=
  if InUse mon then (Some err_memcap_in_use, mon)
  else (None, set_locationsCap max mon).

Definition DeclareSizeIncrease (delta : Z) (mon : Monitor) : option error * Monitor :=
  match err mon with
  | Some e => (Some e, mon)
  | None =>
      let mon1 := set_locationsUsed (atomic_AddUintptr p (locationsUsed mon) delta) mon in
      if locationsUsed mon1 >=? locationsCap mon1 then
        let mon2 := set_err (Some (err_too_much_memory delta)) mon1 in
        (err mon2, mon2)
      else (None, mon1)
  end.

Definition DeclareSizeDecrease (delta : Z) (mon : Monitor) : Monitor :=
  match err mon with
  | Some _ => mon
  | None =>
      set_locationsUsed (atomic_AddUintptr p (locationsUsed mon) (negptr p delta)) mon
  end.

(** The calls a client can make on a monitor, and what each returns. *)
Inductive call : Type :=
| CallCheckUsage
| CallCountStep
| CallSetMaxExecutionSteps (max : Z)
| CallSetLocationsCap (max : Z)
| CallDeclareSizeIncrease (delta : Z)
| CallDeclareSizeDecrease (delta : Z).

Definition do_call (c : call) (mon : Monitor) : option error * Monitor :=
  match c with
  | CallCheckUsage => CheckUsage mon
  | CallCountStep => (None, countStep mon)
  | CallSetMaxExecutionSteps max => SetMaxExecutionSteps max mon
  | CallSetLocationsCap max => SetLocationsCap max mon
  | CallDeclareSizeIncrease delta => DeclareSizeIncrease delta mon
  | CallDeclareSizeDecrease delta => (None, DeclareSizeDecrease delta mon)
  end.

(** A sequence of calls on one monitor: the values returned, in order,
    and the monitor left behind. *)
Fixpoint do_calls (cs : list call) (mon : Monitor) : list (option error) * Monitor :=
  match cs with
  | [] => ([], mon)
  | c :: cs' =>
      let (r, mon1) := do_call c mon in
      let (rs, mon2) := do_calls cs' mon1 in
      (r :: rs, mon2)
  end.

(** The arguments of a call are values of their Go types. *)
Definition call_wf (c : call) : Prop :=
  match c with
  | CallCheckUsage | CallCountStep => True
  | CallSetMaxExecutionSteps max => is_uint64 max
  | CallSetLocationsCap max => is_uintptr p max
  | CallDeclareSizeIncrease delta | CallDeclareSizeDecrease delta => is_uintptr p delta
  end.

(** The calls that report the quota state. *)
Definition reports_quota (c : call) : bool :=
  match c with
  | CallCheckUsage | CallDeclareSizeIncrease _ => true
  | _ => false
  end.

End MonitorOps.

(* ===================================================================== *)
(** * The static step estimator *)
(* ===================================================================== *)

Definition CallSteps : Z := 1. (* CALL *)
Definition IgnoreResultSteps : Z := 1.
Definition LoopIterStepOverhead : Z := 6.

(** Overhead of calling code within a snippet: POP the result, push NONE,
    RETURN. *)
Definition snippetOverhead : Z := 3.

Definition iterOverhead : Z := 6.

Definition newline : string := String (Ascii.ascii_of_nat 10) EmptyString.

Definition err_failed_to_parse (code : string) : error :=
  errors_New ("internal error: failed to parse:" ++ newline ++ code).

(** A Go function returning [(uint64, error)] that may also panic: [None]
    is the panic. *)
Definition estimate : Type := option (Z * option error).

Section Estimator.

(** The compiler is an external collaborator.  [SourceProgram code] is
    the byte code of the compiled top level,
    [mod.compiled.Toplevel.Code], or [None] when the snippet does not
    compile.  [OpcodeArgMin] is the first opcode that carries an operand,
    [compile.OpcodeArgMin]. *)
Variable SourceProgram : string -> option (list Z).
Variable OpcodeArgMin : Z.

(** The instruction walk of [EstimateSteps].  The list is the byte code
    from [pc] on; [in_arg] holds inside the operand loop [arg:], where
    an operand byte below [0x80] is the last one.  Reading past the end
    of the byte code inside the operand loop is an index out of range,
    a panic. *)
Fixpoint count_steps (byteCode : list Z) (in_arg : bool) (steps : Z) : option Z :=
  match byteCode with
  | [] => if in_arg then None else Some steps
  | b :: rest =>
      if in_arg then
        if b <? 128 then count_steps rest false steps
        else count_steps rest true steps
      else
        let steps := add64 steps 1 in
        if b >=? OpcodeArgMin then count_steps rest true steps
        else count_steps rest false steps
  end.

(** The listing of the opcodes that the function prints as it walks is
    left out: nothing reads it. *)
Definition EstimateSteps (code : string) : estimate :=
  match SourceProgram code with
  | None => Some (0, Some (err_failed_to_parse code))
  | Some byteCode =>
      match count_steps byteCode false 0 with
      | None => None
      | Some steps => Some (sub64 steps snippetOverhead, None)
      end
  end.

(** [n] is a Go [int]; [uint64(n)] is its value modulo [2^64]. *)
Definition EstimateIterSteps (code : string) (n : Z) : estimate :=
  match EstimateSteps code with
  | None => None
  | Some (_, Some e) => Some (0, Some e)
  | Some (stepsPerIter, None) =>
      Some (mul64 (to_uint64 n) (add64 stepsPerIter iterOverhead), None)
  end.

(** [MustEstimateSteps] and [MustEstimateIterSteps] panic on an error. *)
Definition MustEstimateSteps (code : string) : option Z :=
  match EstimateSteps code with
  | Some (steps, None) => Some steps
  | _ => None
  end.

Definition MustEstimateIterSteps (code : string) (n : Z) : option Z :=
  match EstimateIterSteps code n with
  | Some (steps, None) => Some steps
  | _ => None
  end.

End Estimator.

(* ===================================================================== *)
(** * Safety flags *)
(* ===================================================================== *)

(** Modelled from the spec: the type [Safety], its four flags, the limit
    [safetyFlagsLimit] that closes their declaration and the method
    [Contains] are declared in a file that is not part of the sources at
    hand.  "An immutable bit-set over four named flags"; "a contains test
    is a bitwise subset check"; "union returns the set of flags present in
    either".  The flags are consecutive single bits, in the order in which
    [stSafe] names them, and the limit is the bit after the last flag. *)
Definition Safety : Type := Z.

(** Modelled from the spec: the flag "CPU-bounded", [1 << iota] at the
    first place of the missing declaration. *)
Definition CPUSafe : Safety := Z.shiftl 1 0.

(** Modelled from the spec: the flag "Memory-bounded", at the second place
    of the missing declaration. *)
Definition MemSafe : Safety := Z.shiftl 1 1.

(** Modelled from the spec: the flag "Time-bounded", at the third place of
    the missing declaration. *)
Definition TimeSafe : Safety := Z.shiftl 1 2.

(** Modelled from the spec: the flag "I/O-free", at the fourth place of the
    missing declaration. *)
Definition IOSafe : Safety := Z.shiftl 1 3.

(** Modelled from the spec: the limit that ends the missing declaration of
    the flags, the bit after the last of them; "a sentinel all-flags value
    exists" as this limit less one. *)
Definition safetyFlagsLimit : Safety := Z.shiftl 1 4.

(** Modelled from the spec: [Contains], missing with the type.
    "[contains(a, b)] returns true iff every flag set in [b] is also set
    in [a]". *)
Definition Contains (a b : Safety) : bool := Z.land a b =? b.

(** Go's [a | b]. *)
Definition union (a b : Safety) : Safety := Z.lor a b.

(** From the test exports of package [starlark]. *)
Definition Safe : Safety := safetyFlagsLimit - 1.
Definition SafetyFlagsLimit : Safety := safetyFlagsLimit.

(** From package [startest]. *)
Definition stSafe : Safety := union (union (union CPUSafe MemSafe) TimeSafe) IOSafe.

(** The individually named flags. *)
Definition named_flags : list Safety := [CPUSafe; MemSafe; TimeSafe; IOSafe].

(* ===================================================================== *)
(** * Threads *)
(* ===================================================================== *)

(** Modelled from the spec: the type [Thread] is not part of the sources at
    hand; only its callers are.  "Attributes: required Safety, an owned
    Monitor, ..."; of the attributes the two that the modelled operations
    read are kept.  "[requireSafety(set)] unions the given set into the
    required Safety"; "[allocations()] return the Monitor's current
    counters"; "[setMaxAllocations(max)] delegate to the Monitor with the
    same guard"; "[declareSizeIncrease(delta, context)] / implicit decrease
    delegate to the Monitor". *)
Record Thread : Type := mkThread {
  requiredSafety : Safety;
  monitor : Monitor
}.

(** The zero value, as [new(starlark.Thread)] gives it. *)
Definition zeroThread : Thread := mkThread 0 zeroMonitor.

Definition set_monitor (mon : Monitor) (thread : Thread) : Thread :=
  mkThread (requiredSafety thread) mon.

(** Modelled from the spec: [Thread.RequireSafety], missing with the type;
    "unions the given set into the required Safety". *)
Definition Thread_RequireSafety (safety : Safety) (thread : Thread) : Thread :=
  mkThread (union (requiredSafety thread) safety) (monitor thread).

(** Modelled from the spec: [Thread.Allocations], missing with the type;
    "return the Monitor's current counters". *)
Definition Thread_Allocations (thread : Thread) : Z := LocationsUsed (monitor thread).

(** Modelled from the spec: [Thread.ExecutionSteps], missing with the type;
    "return the Monitor's current counters". *)
Definition Thread_ExecutionSteps (thread : Thread) : Z := ExecutionSteps (monitor thread).

(** Modelled from the spec: [Thread.SetMaxAllocations], missing with the
    type; "delegate to the Monitor with the same already-in-use guard". *)
Definition Thread_SetMaxAllocations (max : Z) (thread : Thread) : option error * Thread :=
  let (e, mon) := SetLocationsCap max (monitor thread) in (e, set_monitor mon thread).

(** Modelled from the spec: [Thread.DeclareSizeIncrease], missing with the
    type; "delegate to the Monitor".  The context names the caller and
    does not reach the monitor.  The monitor is used as the thread holds
    it: the defaults of [initMonitor] are not applied on this path, so a
    thread whose cap is zero refuses every declaration here, where the
    thread of [TestPositiveDeltaDeclaration] accepts one below the
    default.  The facts about the wrapper hold for every cap, and the
    runs they are applied to set a non-zero cap first. *)
Definition Thread_DeclareSizeIncrease (p : ptr_width) (delta : Z) (context : string)
    (thread : Thread) : option error * Thread :=
  let (e, mon) := DeclareSizeIncrease p delta (monitor thread) in (e, set_monitor mon thread).

(** Modelled from the spec: the decrease of a thread, missing with the
    type; "implicit decrease delegate to the Monitor". *)
Definition Thread_DeclareSizeDecrease (p : ptr_width) (delta : Z) (thread : Thread) : Thread :=
  set_monitor (DeclareSizeDecrease p delta (monitor thread)) thread.

(* ===================================================================== *)
(** * The allocation-accounting wrapper *)
(* ===================================================================== *)

(** What the wrapper does to its surroundings, in order. *)
Inductive event : Type :=
| EvDeclareSizeIncrease (delta : Z)
| EvDeclareSizeDecrease (delta : Z)
| EvOperation
| EvSizer (size : Z).

Definition is_EvOperation (ev : event) : bool :=
  match ev with EvOperation => true | _ => false end.

(** How many times the operation ran. *)
Definition invocations (log : list event) : nat :=
  List.length (filter is_EvOperation log).

Section Accounting.

Variable p : ptr_width.

(** [V] is the type of the values an operation produces ([interface{}],
    whose [nil] is [None]); [W] is the state of the host that the
    operation, a closure, can read and write besides the thread. *)
Variables V W : Type.

Definition State : Type := (Thread * W)%type.

(** [func() (interface{}, error)]. *)
Definition Operation : Type := State -> (option V * option error) * State.

(** Modelled from the spec: the type [starlark.Sizer], declared with the
    wrapper; "a function from an arbitrary produced value to its size in
    memory units", "a pure function of its argument".  The table of the
    test uses it at [func(interface{}) uintptr]. *)
Definition Sizer : Type := option V -> Z.

(** Computations of the wrapper: they pass the state along and log the
    events in the order in which they happen. *)
Definition Acct (A : Type) : Type := State -> A * State * list event.

Definition acct_ret {A : Type} (a : A) : Acct A := fun s => (a, s, []).

Definition acct_bind {A B : Type} (c : Acct A) (k : A -> Acct B) : Acct B :=
  fun s =>
    let '(a, s1, log1) := c s in
    let '(b, s2, log2) := k a s1 in
    (b, s2, log1 ++ log2).

Notation "x <- c ;; k" := (acct_bind c (fun x => k))
  (at level 61, c at next level, right associativity).

Definition declareSizeIncrease (delta : Z) (context : string) : Acct (option error) :=
  fun '(thread, w) =>
    let (e, thread') := Thread_DeclareSizeIncrease p delta context thread in
    (e, (thread', w), [EvDeclareSizeIncrease delta]).

Definition declareSizeDecrease (delta : Z) : Acct unit :=
  fun '(thread, w) =>
    (tt, (Thread_DeclareSizeDecrease p delta thread, w), [EvDeclareSizeDecrease delta]).

Definition invoke (op : Operation) : Acct (option V * option error) :=
  fun s => let (r, s') := op s in (r, s', [EvOperation]).

Definition measure (sizeOf : Sizer) (result : option V) : Acct Z :=
  fun s => let size := to_uintptr p (sizeOf result) in (size, s, [EvSizer size]).

(** Modelled from the spec: the function [AccountAllocsForOperation] is
    not part of the sources at hand; its test is.
    "1. If the pre-declared estimate is non-zero, declare it as a size
    increase before running the operation.  If this fails, return
    immediately with no result, no error from the operation, and the
    operation itself is never invoked.  2. Otherwise invoke the
    operation.  3. If a Sizer was supplied and the operation succeeded,
    measure the result's actual size and declare the difference between
    measured size and the pre-declared estimate (which may be a net
    increase or net decrease) against the Monitor.  4. If step 1 or step
    3's declaration fails, the wrapper returns a nil result and the
    latched error, even if the underlying operation itself produced a
    valid result.  5. If the operation itself fails, propagate its
    error."  Rule 5 names neither the result that goes with the error of
    a failing operation nor the accounting that is still knowable then,
    and no entry of the test's table has a failing operation.  The
    reading taken here: a failed operation yields no result to measure,
    the accounting stands as the pre-declaration left it, and the error
    is passed on with a nil result.  The facts proved of the wrapper
    below do not rest on this branch. *)
Definition AccountAllocsForOperation (opName : string) (op : Operation)
    (prealloc : Z) (resultSizeOf : option Sizer) : Acct (option V * option error) :=
  pre <- (if negb (prealloc =? 0) then declareSizeIncrease prealloc opName
          else acct_ret None) ;;
  match pre with
  | Some e => acct_ret (None, Some e)
  | None =>
      r <- invoke op ;;
      match snd r, resultSizeOf with
      | Some e, _ => acct_ret (None, Some e)
      | None, None => acct_ret (fst r, None)
      | None, Some sizeOf =>
          size <- measure sizeOf (fst r) ;;
          if size >? prealloc then
            post <- declareSizeIncrease (subptr p size prealloc) opName ;;
            match post with
            | Some e => acct_ret (None, Some e)
            | None => acct_ret (fst r, None)
            end
          else if size <? prealloc then
            _ <- declareSizeDecrease (subptr p prealloc size) ;;
            acct_ret (fst r, None)
          else acct_ret (fst r, None)
      end
  end.

End Accounting.

Arguments acct_ret {W A} a.
Arguments acct_bind {W A B} c k.
Arguments invoke {V W} op.
Arguments measure p {V W} sizeOf result.
Arguments declareSizeIncrease p {W} delta context.
Arguments declareSizeDecrease p {W} delta.
Arguments AccountAllocsForOperation p {V W} opName op prealloc resultSizeOf.

(** ** The table of [TestAllocAccountingWrapper] *)

Record allocWrapperTest : Type := mkAllocWrapperTest {
  Name : string;
  Op : Operation string bool;
  ExpectedResult : option string;
  ExpectedDelta : Z;
  ExpectOpDone : bool;
  Prealloc : Z;
  ResultSizeOf : option (Sizer string);
  ExpectPass : bool;
  MaxAllocations : Z
}.

Fixpoint strings_Repeat (s : string) (count : nat) : string :=
  match count with
  | O => EmptyString
  | S count' => s ++ strings_Repeat s count'
  end.

Definition dummyString (len : nat) (char : string) : string := strings_Repeat char len.

Definition dummyStrLen : nat := 100.
Definition dummyStr : string := dummyString dummyStrLen "a".

(** [s.(string)] panics at [nil]; no test measures a nil result, and the
    size of one is taken to be [1]. *)
Definition strlenSizeOf : Sizer string :=
  fun s => 1 + Z.of_nat (String.length (match s with Some s' => s' | None => EmptyString end)).

Definition expectedDummyStrDelta : Z := strlenSizeOf (Some dummyStr).

(** The two operations of the table; [opDone] is the host state. *)
Definition op_nil : Operation string bool :=
  fun '(thread, _) => ((None, None), (thread, true)).
Definition op_dummyStr : Operation string bool :=
  fun '(thread, _) => ((Some dummyStr, None), (thread, true)).

(** The limits and estimates that the test computes in floating point are
    written as the integers they convert to: [uintptr(0.5 * 100) = 50],
    [uintptr(1.2 * 100) = 120], [uintptr(1.25 * 101) = 126]. *)
Definition accountingTests : list allocWrapperTest :=
  [ mkAllocWrapperTest "no-allocs" op_nil None 0 true 0 None true 1;
    mkAllocWrapperTest "ok-preallocs" op_dummyStr (Some dummyStr) expectedDummyStrDelta true
      (strlenSizeOf (Some dummyStr)) None true (2 * Z.of_nat dummyStrLen);
    mkAllocWrapperTest "ok-postallocs" op_dummyStr (Some dummyStr) expectedDummyStrDelta true
      0 (Some strlenSizeOf) true (2 * Z.of_nat dummyStrLen);
    mkAllocWrapperTest "pre-fail" op_dummyStr None expectedDummyStrDelta false
      (strlenSizeOf (Some dummyStr)) None false 1;
    mkAllocWrapperTest "post-fail" op_dummyStr None expectedDummyStrDelta true
      0 (Some strlenSizeOf) false 1;
    mkAllocWrapperTest "ok-prealloc-and-sizer-increase" op_dummyStr (Some dummyStr)
      expectedDummyStrDelta true 50 (Some strlenSizeOf) true 126;
    mkAllocWrapperTest "ok-prealloc-and-sizer-decrease" op_dummyStr (Some dummyStr)
      expectedDummyStrDelta true 120 (Some strlenSizeOf) true 126 ].

Definition option_string_eqb (a b : option string) : bool :=
  match a, b with
  | Some x, Some y => String.eqb x y
  | None, None => true
  | _, _ => false
  end.

Definition is_nil {A : Type} (x : option A) : bool :=
  match x with None => true | Some _ => false end.

(** The body of the test loop at one entry; [true] when the entry reports
    no error. *)
Definition run_accounting_test (p : ptr_width) (test : allocWrapperTest) : bool :=
  let opDone := false in
  let thread := snd (Thread_SetMaxAllocations (MaxAllocations test) zeroThread) in
  let '(r, (thread', opDone'), _) :=
    AccountAllocsForOperation p (Name test) (Op test) (Prealloc test) (ResultSizeOf test)
      (thread, opDone) in
  option_string_eqb (fst r) (ExpectedResult test)
  && Bool.eqb (ExpectPass test) (is_nil (snd r))
  && (Thread_Allocations thread' =? ExpectedDelta test)
  && negb (negb (is_nil (fst r)) && negb (is_nil (snd r)))
  && Bool.eqb opDone' (ExpectOpDone test).

(* ===================================================================== *)
(** * The measurement harness, package [startest] *)
(* ===================================================================== *)

Module startest.

(** The fields of [ST] that [RunThread] reads.  [reported] stands for the
    embedded [TestBase]: the errors reported through it so far, oldest
    first; a test has failed once one was reported. *)
Record ST : Type := mkST {
  maxAllocs : Z;          (* uint64 *)
  maxExecutionSteps : Z;  (* uint64 *)
  N : Z;                  (* int *)
  requiredSafety : Safety;
  safetyGiven : bool;
  executionStepModel : string;
  reported : list string
}.

Definition From (base : list string) : ST :=
  mkST MaxUint64 MaxUint64 0 0 false EmptyString base.

Definition SetMaxAllocs (maxAllocs' : Z) (st : ST) : ST :=
  mkST maxAllocs' (maxExecutionSteps st) (N st) (requiredSafety st) (safetyGiven st)
    (executionStepModel st) (reported st).

Definition SetMaxExecutionSteps (maxExecutionSteps' : Z) (st : ST) : ST :=
  mkST (maxAllocs st) maxExecutionSteps' (N st) (requiredSafety st) (safetyGiven st)
    (executionStepModel st) (reported st).

Definition set_requiredSafety (safety : Safety) (st : ST) : ST :=
  mkST (maxAllocs st) (maxExecutionSteps st) (N st) safety (safetyGiven st)
    (executionStepModel st) (reported st).

Definition RequireSafety (safety : Safety) (st : ST) : ST :=
  mkST (maxAllocs st) (maxExecutionSteps st) (N st) (union (requiredSafety st) safety) true
    (executionStepModel st) (reported st).

Definition Errorf (msg : string) (st : ST) : ST :=
  mkST (maxAllocs st) (maxExecutionSteps st) (N st) (requiredSafety st) (safetyGiven st)
    (executionStepModel st) (reported st ++ [msg]).

Definition Failed (st : ST) : bool :=
  match reported st with [] => false | _ :: _ => true end.

Record resources : Type := mkResources {
  memorySum : Z;     (* uint64 *)
  modelStepSum : Z;  (* uint64 *)
  nSum : Z           (* uint64 *)
}.

(** The messages of [RunThread], each with its two [%d] operands. *)
Definition above (what than : string) (x y : Z) : string :=
  what ++ " " ++ than ++ " (" ++ fmt_d x ++ " > " ++ fmt_d y ++ ")".

Definition msg_measured_above_maximum : Z -> Z -> string :=
  above "measured memory is above" "maximum".
Definition msg_declared_above_maximum : Z -> Z -> string :=
  above "declared allocations are above" "maximum".
Definition msg_measured_above_declared : Z -> Z -> string :=
  above "measured memory is above" "declared allocations".
Definition msg_steps_above_maximum : Z -> Z -> string :=
  above "declared execution steps are above" "maximum".
Definition msg_model_above_maximum : Z -> Z -> string :=
  above "model execution steps are above" "maximum".
Definition msg_model_above_steps : Z -> Z -> string :=
  above "model execution steps are above" "declared execution steps".

(** Modelled from the spec: [Thread.Allocs], missing with the type
    [Thread]; "return the Monitor's current counters", here as the
    [uint64] that [RunThread] divides. *)
Definition Thread_Allocs (thread : Thread) : Z := to_uint64 (LocationsUsed (monitor thread)).

Section RunThread.

(** [measureResources] reads the clock and the heap of the Go run
    time.  Its run on the tested function, which works on the thread,
    is an input: the sums it returns, the harness with what was
    reported meanwhile, and the thread as the function left it. *)
Variable measureResources : ST -> Thread -> resources * ST * Thread.

(** [None] is the panic of an integer division by zero.  The print
    hook and the locals that the function copies into the thread are
    left out: the comparisons do not read them. *)
Definition RunThread (st : ST) : option ST :=
  let st := if negb (safetyGiven st) then set_requiredSafety stSafe st else st in
  let thread := Thread_RequireSafety (requiredSafety st) zeroThread in
  let '(resources, st, thread) := measureResources st thread in
  if Failed st then Some st
  else if nSum resources =? 0 then None
  else
    let meanMeasuredAllocs := memorySum resources / nSum resources in
    let st :=
      if negb (maxAllocs st =? MaxUint64) && (meanMeasuredAllocs >? maxAllocs st)
      then Errorf (msg_measured_above_maximum meanMeasuredAllocs (maxAllocs st)) st
      else st in
    let st :=
      if Contains (requiredSafety st) MemSafe then
        let meanDeclaredAllocs := Thread_Allocs thread / nSum resources in
        let st :=
          if meanDeclaredAllocs >? maxAllocs st
          then Errorf (msg_declared_above_maximum meanDeclaredAllocs (maxAllocs st)) st
          else st in
        if meanMeasuredAllocs >? meanDeclaredAllocs
        then Errorf (msg_measured_above_declared meanMeasuredAllocs meanDeclaredAllocs) st
        else st
      else st in
    let meanExecutionSteps := Thread_ExecutionSteps thread / nSum resources in
    let st :=
      if negb (maxExecutionSteps st =? MaxUint64)
         && (meanExecutionSteps >? maxExecutionSteps st)
      then Errorf (msg_steps_above_maximum meanExecutionSteps (maxExecutionSteps st)) st
      else st in
    let st :=
      if Contains (requiredSafety st) CPUSafe then
        let meanModelExecutionSteps := modelStepSum resources / nSum resources in
        let st :=
          if meanModelExecutionSteps >? maxExecutionSteps st
          then Errorf (msg_model_above_maximum meanModelExecutionSteps
                         (maxExecutionSteps st)) st
          else st in
        if meanModelExecutionSteps >? meanExecutionSteps
        then Errorf (msg_model_above_steps meanModelExecutionSteps meanExecutionSteps) st
        else st
      else st in
    Some st.

End RunThread.

End startest.

(* ===================================================================== *)
(** * Sample runs *)
(* ===================================================================== *)

(** A monitor with the default caps, as [initMonitor] leaves a fresh one
    on a 64-bit target when the flag [memcap] is not given. *)
Definition freshMonitor : Monitor := initMonitor W64 DefaultLocationsCap_default zeroMonitor.

(** A monitor with memory cap [1] on which a declaration of [101] units
    has failed. *)
Definition latchedMonitor : Monitor :=
  snd (DeclareSizeIncrease W64 101 (snd (SetLocationsCap 1 zeroMonitor))).

Definition sample_calls : list call :=
  [ CallCheckUsage; CallDeclareSizeIncrease 7; CallDeclareSizeDecrease 3; CallCountStep;
    CallSetLocationsCap 9; CallDeclareSizeIncrease 1; CallCheckUsage ].

(** The steps of [TestPositiveDeltaDeclaration] on the monitor: a
    declaration of [1000] units is accepted, and then the cap is set. *)
Definition declaredMonitor : Monitor := snd (DeclareSizeIncrease W64 1000 freshMonitor).

(** A monitor with step limit [5] that has counted five steps. *)
Definition fiveStepsMonitor : Monitor :=
  countStep (countStep (countStep (countStep (countStep
    (snd (SetMaxExecutionSteps 5 zeroMonitor)))))).

(** A toy compiler for the estimator: opcodes from [64] on carry an
    operand; every snippet compiles to two loads and two stores followed
    by the wrap-up sequence of three plain instructions. *)
Definition toy_OpcodeArgMin : Z := 64.
Definition toy_SourceProgram (code : string) : option (list Z) :=
  Some [70; 0; 71; 0; 70; 1; 71; 129; 2; 3; 4; 5].

(** The scenario of the accounting wrapper: the cap is [200], the estimate
    [100], and the operation returns a string of [59] characters, whose
    size is [60]. *)
Definition scenario_thread : Thread := snd (Thread_SetMaxAllocations 200 zeroThread).
Definition scenario_op : Operation string bool :=
  fun '(thread, _) => ((Some (dummyString 59 "a"), None), (thread, true)).

(** The scenario of a failed pre-declaration: cap [1], estimate [101]. *)
Definition prefail_thread : Thread := snd (Thread_SetMaxAllocations 1 zeroThread).

(** A harness run: ten repeats in all, a thousand bytes measured, fifty
    units declared, under a ceiling of three units per repeat. *)
Definition sample_measureResources (st : startest.ST) (thread : Thread)
    : startest.resources * startest.ST * Thread :=
  (startest.mkResources 1000 0 10, st, set_monitor (set_locationsUsed 50 (monitor thread)) thread).

Definition sample_ST : startest.ST := startest.SetMaxAllocs 3 (startest.From []).

(* ===================================================================== *)
(** * Further parts of the code *)
(* ===================================================================== *)

(** ** Counting several steps *)

(** [k] calls of [countStep], as the interpreter makes them one per
    instruction. *)
Definition countSteps (k : nat) (mon : Monitor) : Monitor := Nat.iter k countStep mon.

(** ** Byte code as the estimator reads it *)

(** An instruction as [EstimateSteps] walks over it: the opcode and the
    bytes of its operand.  An opcode below [OpcodeArgMin] has no operand;
    the operand of the others is written with a continuation bit: every
    byte but the last is [0x80] or more and the last is below [0x80]. *)
Record instruction : Type := mkInstruction { opcode : Z; operand : list Z }.

Definition encode_instruction (i : instruction) : list Z := opcode i :: operand i.

Definition encode_program (prog : list instruction) : list Z :=
  flat_map encode_instruction prog.

Definition operand_wf (bytes : list Z) : Prop :=
  exists (more : list Z) (last : Z),
    bytes = more ++ [last] /\ Forall (fun b => 128 <= b) more /\ last < 128.

Definition instruction_wf (OpcodeArgMin : Z) (i : instruction) : Prop :=
  if opcode i >=? OpcodeArgMin then operand_wf (operand i) else operand i = [].

(** ** The measurement loop of the harness *)

Module startest_run.

Import startest.

Definition nMax : Z := 100000.

(** [100 * 2 << 20]: in Go [*] and [<<] bind alike and group to the left. *)
Definition memoryMax : Z := Z.shiftl (100 * 2) 20.

Definition timeMax : Z := 1000000000.

(** The conversion [int64(x)] of a [uint64]. *)
Definition to_int64 (z : Z) : Z :=
  let u := to_uint64 z in
  if u <? 2 ^ 63 then u else u - uint64_modulus.

Definition set_N (n : Z) (st : ST) : ST :=
  mkST (maxAllocs st) (maxExecutionSteps st) n (requiredSafety st) (safetyGiven st)
    (executionStepModel st) (reported st).

(** [st.Error(err)]: the error is reported with its message. *)
Definition Error_err (e : error) (st : ST) : ST := Errorf (Error e) st.

(** The repeat count of the next round, computed at the head of the loop
    body from the count of the last round, [uint64(st.N)] and the memory
    measured so far. *)
Definition nextN (last prevIters memorySum : Z) : Z :=
  let prevMemory := memorySum in
  let prevMemory := if prevMemory <=? 0 then 1 else prevMemory in
  let n := mul64 memoryMax prevIters / prevMemory in
  let n := add64 n (n / 5) in
  let maxGrowth := mul64 last 100 in
  let minGrowth := add64 last 1 in
  let n :=
    if n >? maxGrowth then maxGrowth
    else if n <? minGrowth then minGrowth
    else n in
  if n >? nMax then nMax else n.

(** What a run of [measureResources] reads from the Go run time: the
    nanosecond field of the clock at entry and at the test before each
    round, the bytes of allocated heap before and after the tested
    function in each round, and the capacity of [st.alive] after it. *)
Record runtime : Type := mkRuntime {
  startNano : Z;
  clock : nat -> Z;
  heapBefore : nat -> Z;
  heapAfter : nat -> Z;
  aliveCap : nat -> Z
}.

(** The local variables of the loop, with the harness and the thread that
    the tested function works on. *)
Record loop_state : Type := mkLoopState {
  ls_st : ST;
  ls_thread : Thread;
  ls_n : Z;
  ls_memorySum : Z;
  ls_modelStepSum : Z;
  ls_nSum : Z;
  ls_valueTrackerOverhead : Z
}.

(** A round either returns from [measureResources] or goes on. *)
Inductive loop_exit : Type :=
| Returned (r : resources * ST * Thread)
| Continue (s : loop_state).

Definition no_resources : resources := mkResources 0 0 0.

Section MeasureResources.

Variable p : ptr_width.
Variable rt : runtime.

(** The tested function, which works on the harness and on the thread. *)
Variable fn : ST -> Thread -> ST * Thread.

(** Compiling the step model and running it on a thread of its own: the
    error of either, or the execution steps of that thread. *)
Variable runStepModel : ST -> error + Z.

(** [unsafe.Sizeof(interface{}(nil))]: two words. *)
Definition sizeof_interface : Z := 2 * (uintptr_bits p / 8).

(** The condition of the [for] statement before round [i]. *)
Definition loop_test (i : nat) (s : loop_state) : bool :=
  negb (Failed (ls_st s))
  && (sub64 (ls_memorySum s) (ls_valueTrackerOverhead s) <? memoryMax)
  && (ls_n s <? nMax)
  && (clock rt i - startNano rt <? timeMax).

(** The body of the loop in round [i].  [st.N = int(n)] keeps the value:
    [n] is at most [nMax]. *)
Definition round (i : nat) (s : loop_state) : loop_exit :=
  let last := ls_n s in
  let n := nextN last (to_uint64 (N (ls_st s))) (ls_memorySum s) in
  let st := set_N n (ls_st s) in
  let nSum := add64 (ls_nSum s) n in
  let model :=
    if Contains (requiredSafety st) CPUSafe
       && negb (String.eqb (executionStepModel st) EmptyString)
    then Some (runStepModel st) else None in
  match model with
  | Some (inl e) => Returned (no_resources, Error_err e st, ls_thread s)
  | _ =>
      let modelStepSum :=
        match model with
        | Some (inr modelSteps) => add64 (ls_modelStepSum s) (to_uint64 modelSteps)
        | _ => ls_modelStepSum s
        end in
      let '(st, thread) := fn st (ls_thread s) in
      let iterationMeasure := to_int64 (sub64 (heapAfter rt i) (heapBefore rt i)) in
      let valueTrackerOverhead :=
        add64 (ls_valueTrackerOverhead s)
          (mul64 (to_uint64 (aliveCap rt i)) sizeof_interface) in
      let memorySum :=
        if iterationMeasure >? 0 then add64 (ls_memorySum s) (to_uint64 iterationMeasure)
        else ls_memorySum s in
      Continue (mkLoopState st thread n memorySum modelStepSum nSum valueTrackerOverhead)
  end.

(** The loop, from round [i] on; [None] when the fuel runs out. *)
Fixpoint loop (fuel : nat) (i : nat) (s : loop_state) : option loop_exit :=
  match fuel with
  | O => if loop_test i s then None else Some (Continue s)
  | S fuel' =>
      if loop_test i s then
        match round i s with
        | Returned r => Some (Returned r)
        | Continue s' => loop fuel' (S i) s'
        end
      else Some (Continue s)
  end.

Definition measureResources_fuel (fuel : nat) (st : ST) (thread : Thread)
    : option (resources * ST * Thread) :=
  let st := set_N 0 st in
  match loop fuel O (mkLoopState st thread 0 0 0 0 0) with
  | None => None
  | Some (Returned r) => Some r
  | Some (Continue s) =>
      if Failed (ls_st s) then Some (no_resources, ls_st s, ls_thread s)
      else
        let memorySum :=
          if ls_valueTrackerOverhead s >? ls_memorySum s then 0
          else sub64 (ls_memorySum s) (ls_valueTrackerOverhead s) in
        Some (mkResources memorySum (ls_modelStepSum s) (ls_nSum s), ls_st s, ls_thread s)
  end.

(** The loop ends within [nMax] rounds, so this much fuel is never used
    up; [measureResources] is then the function that [RunThread] calls. *)
Definition enough_fuel : nat := S (Z.to_nat nMax).

Definition measureResources (st : ST) (thread : Thread) : resources * ST * Thread :=
  match measureResources_fuel enough_fuel st thread with
  | Some r => r
  | None => (no_resources, st, thread)
  end.

End MeasureResources.

(** ** The iterator of [st.ntimes()] *)

(** [ntimes_iterator.Next]: whether a value, always [None], was produced,
    and the iterator after the call. *)
Definition ntimes_Next (n : Z) : bool * Z :=
  if n >? 0 then (true, n - 1) else (false, n).

(** [k] calls of [Next] in a row: what each returned, and the iterator
    left. *)
Fixpoint ntimes_Next_calls (k : nat) (n : Z) : list bool * Z :=
  match k with
  | O => ([], n)
  | S k' =>
      let (r, n1) := ntimes_Next n in
      let (rs, n2) := ntimes_Next_calls k' n1 in
      (r :: rs, n2)
  end.

(** ** Attributes of the harness *)

(** What [Attr] returns: a method of the harness bound to it, or the
    integer [st.N]. *)
Inductive attribute : Type :=
| BoundMethod (name : string)
| IntAttr (n : Z).

(** [None] is the pair [(nil, nil)]: no such attribute. *)
Definition Attr (name : string) (st : ST) : option attribute :=
  if String.eqb name "error" then Some (BoundMethod "error")
  else if String.eqb name "fatal" then Some (BoundMethod "fatal")
  else if String.eqb name "keep_alive" then Some (BoundMethod "keep_alive")
  else if String.eqb name "ntimes" then Some (BoundMethod "ntimes")
  else if String.eqb name "do" then Some (BoundMethod "do")
  else if String.eqb name "n" then Some (IntAttr (N st))
  else None.

Definition AttrNames : list string := ["error"; "fatal"; "keep_alive"; "n"]%string.

(** What the loop of [measureResources] keeps true of its variables
    between rounds: the repeat count is within its bound; before the first
    round the harness holds a repeat count of zero and nothing is summed;
    afterwards the sum of the repeat counts is at least the last count and
    at most its square. *)
Definition loop_inv (s : loop_state) : Prop :=
  0 <= ls_n s <= nMax /\
  (ls_n s = 0 -> to_uint64 (N (ls_st s)) = 0 /\ ls_nSum s = 0) /\
  (1 <= ls_n s -> ls_n s <= ls_nSum s <= ls_n s * ls_n s).

End startest_run.

(** ** Runs for the added facts *)

(** A run time with a quiet clock, a heap that grows by a thousand bytes
    in every round and nothing kept alive. *)
Definition quiet_runtime : startest_run.runtime :=
  startest_run.mkRuntime 5 (fun _ => 7) (fun _ => 4096) (fun _ => 5096) (fun _ => 0).

(** A tested function that declares one unit for each repeat. *)
Definition declaring_fn (st : startest.ST) (thread : Thread) : startest.ST * Thread :=
  (st, set_monitor (snd (DeclareSizeIncrease W64 (startest.N st) (monitor thread))) thread).

Definition no_step_model (st : startest.ST) : error + Z := inr 0.

(** The instructions of the byte code that the toy compiler emits. *)
Definition toy_program : list instruction :=
  [ mkInstruction 70 [0]; mkInstruction 71 [0]; mkInstruction 70 [1];
    mkInstruction 71 [129; 2]; mkInstruction 3 []; mkInstruction 4 [];
    mkInstruction 5 [] ].

(** A compiler that emits byte code cut off inside an operand, and one
    that rejects every snippet. *)
Definition cut_SourceProgram (code : string) : option (list Z) := Some [70; 0; 71; 129].
Definition failing_SourceProgram (code : string) : option (list Z) := None.

(** A run time in which the heap shrinks by a hundred bytes in every
    round while four values are kept alive. *)
Definition shrinking_runtime : startest_run.runtime :=
  startest_run.mkRuntime 5 (fun _ => 7) (fun _ => 4096) (fun _ => 3996) (fun _ => 4).

Definition idle_fn (st : startest.ST) (thread : Thread) : startest.ST * Thread := (st, thread).

(** The variables of the loop after a first round that measured nothing
    and kept four values alive on a 64-bit target. *)
Definition overhead_state : startest_run.loop_state :=
  startest_run.mkLoopState (startest_run.set_N 1 sample_ST) zeroThread 1 0 0 1 64.

(** ** The consistency tests of the safety declarations *)

(** A Go map with string keys, as the list of its entries; no key occurs
    twice. *)
Definition go_map (V : Type) : Type := list (string * V).

Definition map_wf {V : Type} (m : go_map V) : Prop := NoDup (map fst m).

(** [m[name]] with its [ok]. *)
Fixpoint map_lookup {V : Type} (m : go_map V) (name : string) : option V :=
  match m with
  | [] => None
  | (k, v) :: m' => if String.eqb k name then Some v else map_lookup m' name
  end.

(** A member of a module: a built-in, with the safety it carries, or a
    value of another kind. *)
Inductive member : Type :=
| MemberBuiltin (safety : Safety)
| MemberOther.

(** The errors of the two tests, each with the operands of its format. *)
Inductive safety_report : Type :=
| NoSafetyDeclaration (name : string)
| IncorrectSafety (name : string) (expected actual : Safety)
| NoMethodForDeclaration (name : string).

(** [TestModuleSafeties] on the members of a module and its declared
    safeties: the errors it reports, in the order of the entries. *)
Definition TestModuleSafeties (Members : go_map member) (Safeties : go_map Safety)
    : list safety_report :=
  flat_map
    (fun '(name, value) =>
       match value with
       | MemberOther => []
       | MemberBuiltin actualSafety =>
           match map_lookup Safeties name with
           | None => [NoSafetyDeclaration name]
           | Some safety =>
               if negb (actualSafety =? safety)
               then [IncorrectSafety name safety actualSafety]
               else []
           end
       end) Members
  ++ flat_map
       (fun '(name, _) =>
          match map_lookup Members name with
          | None => [NoMethodForDeclaration name]
          | Some _ => []
          end) Safeties.

(** [TestMethodSafetiesExist] on the methods and their declared safeties. *)
Definition TestMethodSafetiesExist {A B : Type} (TimeMethods : go_map A)
    (TimeMethodSafeties : go_map B) : list safety_report :=
  flat_map
    (fun '(name, _) =>
       match map_lookup TimeMethodSafeties name with
       | None => [NoSafetyDeclaration name]
       | Some _ => []
       end) TimeMethods
  ++ flat_map
       (fun '(name, _) =>
          match map_lookup TimeMethods name with
          | None => [NoMethodForDeclaration name]
          | Some _ => []
          end) TimeMethodSafeties.

(** A module with one built-in and one constant, and declarations for
    both. *)
Definition sample_Members : go_map member :=
  [("now", MemberBuiltin MemSafe); ("nanosecond", MemberOther)]%string.
Definition sample_Safeties : go_map Safety :=
  [("now", MemSafe); ("nanosecond", Safe)]%string.

(* ===================================================================== *)
(** * Facts about machine integers *)
(* ===================================================================== *)

Lemma uintptr_modulus_pos (p : ptr_width) : 0 < uintptr_modulus p.
Proof. destruct p; reflexivity. Qed.

Lemma uintptr_modulus_le_uint64 (p : ptr_width) : uintptr_modulus p <= uint64_modulus.
Proof. destruct p; unfold uintptr_modulus, uint64_modulus; simpl; lia. Qed.

Lemma to_uintptr_range (p : ptr_width) (z : Z) : is_uintptr p (to_uintptr p z).
Proof. apply Z.mod_pos_bound, uintptr_modulus_pos. Qed.

Lemma to_uint64_range (z : Z) : is_uint64 (to_uint64 z).
Proof. apply Z.mod_pos_bound. reflexivity. Qed.

Lemma to_uintptr_id (p : ptr_width) (z : Z) : is_uintptr p z -> to_uintptr p z = z.
Proof. intros H. apply Z.mod_small. exact H. Qed.

Lemma to_uint64_id (z : Z) : is_uint64 z -> to_uint64 z = z.
Proof. intros H. apply Z.mod_small. exact H. Qed.

(** Adding the two's complement of [delta] subtracts [delta], modulo the
    width. *)
Lemma addptr_negptr (p : ptr_width) (x delta : Z) :
  addptr p x (negptr p delta) = to_uintptr p (x - delta).
Proof.
  unfold addptr, negptr, to_uintptr.
  rewrite Zplus_mod_idemp_r. f_equal; lia.
Qed.

Lemma addptr_addptr_subptr (p : ptr_width) (x a b : Z) :
  addptr p (addptr p x a) (subptr p b a) = to_uintptr p (x + b).
Proof.
  unfold addptr, subptr, to_uintptr.
  rewrite Zplus_mod_idemp_l, Zplus_mod_idemp_r. f_equal; lia.
Qed.

Lemma addptr_addptr_negptr_subptr (p : ptr_width) (x a b : Z) :
  addptr p (addptr p x a) (negptr p (subptr p a b)) = to_uintptr p (x + b).
Proof.
  rewrite addptr_negptr. unfold addptr, subptr, to_uintptr.
  rewrite Zminus_mod_idemp_l, Zminus_mod_idemp_r. f_equal; lia.
Qed.

(* ===================================================================== *)
(** * The monitor *)
(* ===================================================================== *)

Section MonitorFacts.

Variable p : ptr_width.

Lemma CheckUsage_latched (mon : Monitor) (e : error) :
  err mon = Some e -> CheckUsage mon = (Some e, mon).
Proof. intros H. unfold CheckUsage. rewrite H. reflexivity. Qed.

Lemma DeclareSizeIncrease_latched (mon : Monitor) (e : error) (delta : Z) :
  err mon = Some e -> DeclareSizeIncrease p delta mon = (Some e, mon).
Proof. intros H. unfold DeclareSizeIncrease. rewrite H. reflexivity. Qed.

Lemma DeclareSizeDecrease_latched (mon : Monitor) (e : error) (delta : Z) :
  err mon = Some e -> DeclareSizeDecrease p delta mon = mon.
Proof. intros H. unfold DeclareSizeDecrease. rewrite H. reflexivity. Qed.

(** The calls keep every field within its Go type. *)
Lemma do_call_wf (c : call) (mon : Monitor) :
  call_wf p c -> Monitor_wf p mon -> Monitor_wf p (snd (do_call p c mon)).
Proof.
  unfold Monitor_wf. intros Hc (Hs & Hm & Hu & Hl).
  destruct c; cbn [do_call snd call_wf] in *.
  - unfold CheckUsage. destruct (err mon); [cbn; auto|].
    destruct (_ >=? _); cbn; auto.
  - cbn. split; [apply to_uint64_range | auto].
  - unfold SetMaxExecutionSteps. destruct (InUse mon); cbn; auto.
  - unfold SetLocationsCap. destruct (InUse mon); cbn; auto.
  - unfold DeclareSizeIncrease. destruct (err mon); [cbn; auto|].
    cbn -[atomic_AddUintptr].
    pose proof (to_uintptr_range p (locationsUsed mon + delta)) as Hr.
    destruct (_ >=? _); cbn -[atomic_AddUintptr]; auto.
  - unfold DeclareSizeDecrease. destruct (err mon); [cbn; auto|].
    cbn -[atomic_AddUintptr].
    pose proof (to_uintptr_range p (locationsUsed mon + negptr p delta)) as Hr. auto.
Qed.

(** An error that [CheckUsage] returns is the stored one. *)
Lemma CheckUsage_returns_latch (mon mon' : Monitor) (e : error) :
  CheckUsage mon = (Some e, mon') -> err mon' = Some e.
Proof.
  unfold CheckUsage. destruct (err mon) as [e0|] eqn:E.
  - intros H. inversion H; subst. exact E.
  - destruct (steps mon >=? maxSteps mon); intros H; inversion H; reflexivity.
Qed.

(** An error that [DeclareSizeIncrease] returns is the stored one. *)
Lemma DeclareSizeIncrease_returns_latch (mon mon' : Monitor) (e : error) (delta : Z) :
  DeclareSizeIncrease p delta mon = (Some e, mon') -> err mon' = Some e.
Proof.
  unfold DeclareSizeIncrease. destruct (err mon) as [e0|] eqn:E.
  - intros H. inversion H; subst. exact E.
  - cbn -[atomic_AddUintptr].
    destruct (_ >=? _); intros H; inversion H; reflexivity.
Qed.

(** No call clears the latch or, once it is set, moves [locationsUsed]. *)
Lemma do_call_latched (c : call) (mon : Monitor) (e : error) :
  err mon = Some e ->
  err (snd (do_call p c mon)) = Some e /\
  locationsUsed (snd (do_call p c mon)) = locationsUsed mon /\
  (reports_quota c = true -> do_call p c mon = (Some e, mon)).
Proof.
  intros H. destruct c; simpl.
  - rewrite (CheckUsage_latched _ _ H). auto.
  - unfold countStep. simpl. split; [exact H|]. split; [reflexivity|discriminate].
  - unfold SetMaxExecutionSteps. destruct (InUse mon); simpl;
      (split; [exact H|]; split; [reflexivity|discriminate]).
  - unfold SetLocationsCap. destruct (InUse mon); simpl;
      (split; [exact H|]; split; [reflexivity|discriminate]).
  - rewrite (DeclareSizeIncrease_latched _ _ _ H). auto.
  - rewrite (DeclareSizeDecrease_latched _ _ _ H).
    split; [exact H|]. split; [reflexivity|discriminate].
Qed.

Lemma do_calls_latched (cs : list call) (mon : Monitor) (e : error) :
  err mon = Some e ->
  err (snd (do_calls p cs mon)) = Some e /\
  locationsUsed (snd (do_calls p cs mon)) = locationsUsed mon /\
  Forall2 (fun c r => reports_quota c = true -> r = Some e) cs (fst (do_calls p cs mon)).
Proof.
  revert mon. induction cs as [|c cs IH]; intros mon H; simpl.
  - repeat split; auto.
  - destruct (do_call_latched c mon e H) as (He & Hu & Hr).
    destruct (do_call p c mon) as [r mon1] eqn:Ec. simpl in He, Hu, Hr.
    destruct (IH mon1 He) as (He' & Hu' & Hf).
    destruct (do_calls p cs mon1) as [rs mon2]. simpl in *.
    split; [exact He'|]. split; [congruence|].
    constructor; [|exact Hf].
    intros Hq. specialize (Hr Hq). congruence.
Qed.

End MonitorFacts.

(** Claim C1: once a call to [CheckUsage] or [DeclareSizeIncrease] has
    returned an error, that error is stored in the monitor; from then on
    [CheckUsage] and [DeclareSizeIncrease] return this very error and
    leave the monitor as it is, [DeclareSizeDecrease] leaves it as it is
    too, and through any further sequence of calls the latch stays set,
    [locationsUsed] keeps its value, and every [CheckUsage] and
    [DeclareSizeIncrease] among them returns the stored error. *)
Theorem latch_is_sticky (p : ptr_width) (c0 : call) (mon0 mon : Monitor) (e : error)
    (cs : list call) :
  reports_quota c0 = true ->
  do_call p c0 mon0 = (Some e, mon) ->
  err mon = Some e /\
  (forall delta : Z,
      CheckUsage mon = (Some e, mon) /\
      DeclareSizeIncrease p delta mon = (Some e, mon) /\
      DeclareSizeDecrease p delta mon = mon) /\
  err (snd (do_calls p cs mon)) = Some e /\
  locationsUsed (snd (do_calls p cs mon)) = locationsUsed mon /\
  Forall2 (fun c r => reports_quota c = true -> r = Some e) cs (fst (do_calls p cs mon)).
Proof.
  intros Hq Hc.
  assert (He : err mon = Some e).
  { destruct c0; try discriminate Hq; simpl in Hc.
    - eapply CheckUsage_returns_latch; eassumption.
    - eapply DeclareSizeIncrease_returns_latch; eassumption. }
  split; [exact He|]. split.
  - intros delta. split; [|split].
    + apply CheckUsage_latched, He.
    + apply DeclareSizeIncrease_latched, He.
    + eapply DeclareSizeDecrease_latched, He.
  - apply do_calls_latched, He.
Qed.

Lemma latch_is_sticky_witness :
  reports_quota (CallDeclareSizeIncrease 101) = true /\
  do_call W64 (CallDeclareSizeIncrease 101) (snd (SetLocationsCap 1 zeroMonitor))
    = (Some (err_too_much_memory 101), latchedMonitor) /\
  err (snd (do_calls W64 sample_calls latchedMonitor)) = Some (err_too_much_memory 101) /\
  locationsUsed (snd (do_calls W64 sample_calls latchedMonitor)) = locationsUsed latchedMonitor.
Proof.
  split; [reflexivity|]. split; [reflexivity|].
  destruct (latch_is_sticky W64 (CallDeclareSizeIncrease 101)
              (snd (SetLocationsCap 1 zeroMonitor)) latchedMonitor
              (err_too_much_memory 101) sample_calls eq_refl eq_refl)
    as (_ & _ & He & Hu & _).
  split; [exact He | exact Hu].
Defined.

(** ** The guard of the cap setters *)

Lemma countStep_InUse (mon : Monitor) :
  is_uint64 (steps mon) -> steps mon <> MaxUint64 -> InUse (countStep mon) = true.
Proof.
  unfold is_uint64, MaxUint64, InUse, countStep, add64, to_uint64, uint64_modulus.
  change (2 ^ 64) with 18446744073709551616. simpl.
  intros Hr Hm. rewrite Z.mod_small by lia. apply Z.gtb_lt. lia.
Qed.

Lemma DeclareSizeIncrease_steps (p : ptr_width) (delta : Z) (mon : Monitor) :
  steps (snd (DeclareSizeIncrease p delta mon)) = steps mon.
Proof.
  unfold DeclareSizeIncrease. destruct (err mon); [reflexivity|].
  cbn -[atomic_AddUintptr]. destruct (_ >=? _); reflexivity.
Qed.

(** The claim C2 as it is worded fails: on a monitor that has accepted a
    declaration of [1000] units and counted no step, both setters return
    no error and change the cap; the next declaration fails against the
    new cap. *)
Lemma cap_setters_after_declaration :
  DeclareSizeIncrease W64 1000 freshMonitor = (None, declaredMonitor) /\
  locationsCap declaredMonitor = 32767 /\
  SetLocationsCap 1500 declaredMonitor = (None, set_locationsCap 1500 declaredMonitor) /\
  SetMaxExecutionSteps 7 declaredMonitor = (None, set_maxSteps 7 declaredMonitor) /\
  fst (DeclareSizeIncrease W64 1000 (snd (SetLocationsCap 1500 declaredMonitor)))
    = Some (err_too_much_memory 1000).
Proof. repeat split. Qed.

(** Claim C2, amended: on a monitor that is in use, which is one whose
    step counter is not zero, [SetMaxExecutionSteps] and [SetLocationsCap]
    return a configuration error and leave the monitor, its caps
    included, as it is; a call of [countStep] that does not wrap the
    counter puts the monitor in use, and a call of [DeclareSizeIncrease]
    does not change whether it is in use. *)
Theorem cap_setters_in_use_guard (p : ptr_width) (mon : Monitor) (max delta : Z) :
  (InUse mon = true ->
     SetMaxExecutionSteps max mon = (Some err_steps_in_use, mon) /\
     SetLocationsCap max mon = (Some err_memcap_in_use, mon) /\
     is_config_error err_steps_in_use = true /\
     is_config_error err_memcap_in_use = true) /\
  (is_uint64 (steps mon) -> steps mon <> MaxUint64 -> InUse (countStep mon) = true) /\
  InUse (snd (DeclareSizeIncrease p delta mon)) = InUse mon.
Proof.
  split; [|split].
  - intros H. unfold SetMaxExecutionSteps, SetLocationsCap. rewrite H.
    repeat split.
  - apply countStep_InUse.
  - unfold InUse. rewrite DeclareSizeIncrease_steps. reflexivity.
Qed.

Lemma cap_setters_in_use_guard_witness :
  InUse (countStep zeroMonitor) = true /\
  SetMaxExecutionSteps 7 (countStep zeroMonitor) = (Some err_steps_in_use, countStep zeroMonitor) /\
  SetLocationsCap 1500 (countStep zeroMonitor) = (Some err_memcap_in_use, countStep zeroMonitor).
Proof.
  assert (H : InUse (countStep zeroMonitor) = true) by reflexivity.
  split; [exact H|].
  destruct (proj1 (cap_setters_in_use_guard W64 (countStep zeroMonitor) 7 0) H)
    as (H1 & _ & _).
  destruct (proj1 (cap_setters_in_use_guard W64 (countStep zeroMonitor) 1500 0) H)
    as (_ & H2 & _).
  split; [exact H1 | exact H2].
Defined.

(** ** The step limit *)

(** What [CheckUsage] does on a monitor with no stored error. *)
Lemma CheckUsage_unlatched (mon : Monitor) :
  err mon = None ->
  (steps mon < maxSteps mon -> CheckUsage mon = (None, mon)) /\
  (maxSteps mon <= steps mon ->
     CheckUsage mon = (Some err_too_many_steps, set_err (Some err_too_many_steps) mon)).
Proof.
  intros H. unfold CheckUsage. rewrite H. split; intros Hs.
  - destruct (Z.geb_spec (steps mon) (maxSteps mon)); [lia|reflexivity].
  - destruct (Z.geb_spec (steps mon) (maxSteps mon)); [reflexivity|lia].
Qed.

(** Claim C5, where the code departs from it: on a monitor with step limit
    [5] that has counted exactly five steps and stored no error, the step
    counter has not exceeded the limit, and [CheckUsage] builds the error
    "too many steps", stores it and returns it. *)
Theorem CheckUsage_latches_at_the_limit :
  steps fiveStepsMonitor = 5 /\
  maxSteps fiveStepsMonitor = 5 /\
  err fiveStepsMonitor = None /\
  CheckUsage fiveStepsMonitor
    = (Some err_too_many_steps, set_err (Some err_too_many_steps) fiveStepsMonitor) /\
  Error err_too_many_steps = "too many steps"%string.
Proof. repeat split. Qed.

(** ** Decreases *)

(** Claim C10: on a monitor with no stored error [DeclareSizeDecrease]
    subtracts without a check: [locationsUsed] becomes
    [(locationsUsed - delta) mod 2^w]; when [delta] is larger than
    [locationsUsed] the counter wraps to [2^w - (delta - locationsUsed)],
    a value above the old one, whatever the cap; and no error is stored,
    the function having none to return. *)
Theorem DeclareSizeDecrease_wraps (p : ptr_width) (mon : Monitor) (delta : Z) :
  err mon = None ->
  is_uintptr p (locationsUsed mon) ->
  is_uintptr p delta ->
  let mon' := DeclareSizeDecrease p delta mon in
  locationsUsed mon' = (locationsUsed mon - delta) mod 2 ^ uintptr_bits p /\
  (locationsUsed mon < delta ->
     locationsUsed mon' = 2 ^ uintptr_bits p - (delta - locationsUsed mon) /\
     locationsUsed mon < locationsUsed mon') /\
  (delta <= locationsUsed mon -> locationsUsed mon' = locationsUsed mon - delta) /\
  err mon' = None /\
  mon' = set_locationsUsed (locationsUsed mon') mon.
Proof.
  intros He Hu Hd mon'.
  assert (Hv : locationsUsed mon' = (locationsUsed mon - delta) mod 2 ^ uintptr_bits p).
  { subst mon'. unfold DeclareSizeDecrease. rewrite He. simpl.
    unfold atomic_AddUintptr. rewrite addptr_negptr. reflexivity. }
  unfold is_uintptr, uintptr_modulus in Hu, Hd.
  split; [exact Hv|]. split; [|split; [|split]].
  - intros Hlt. rewrite Hv.
    replace (locationsUsed mon - delta)
      with (2 ^ uintptr_bits p - (delta - locationsUsed mon) + (-1) * 2 ^ uintptr_bits p) by lia.
    rewrite Z.mod_add by lia. rewrite Z.mod_small by lia. lia.
  - intros Hle. rewrite Hv. apply Z.mod_small. lia.
  - subst mon'. unfold DeclareSizeDecrease. rewrite He. exact He.
  - subst mon'. unfold DeclareSizeDecrease. rewrite He. reflexivity.
Qed.

Lemma DeclareSizeDecrease_wraps_witness :
  locationsUsed (DeclareSizeDecrease W64 1 zeroMonitor) = 18446744073709551615 /\
  err (DeclareSizeDecrease W64 1 zeroMonitor) = None.
Proof.
  assert (He : err zeroMonitor = None) by reflexivity.
  assert (Hu : is_uintptr W64 (locationsUsed zeroMonitor)) by (split; [discriminate|reflexivity]).
  assert (Hd : is_uintptr W64 1) by (split; [discriminate|reflexivity]).
  destruct (DeclareSizeDecrease_wraps W64 zeroMonitor 1 He Hu Hd) as (_ & Hw & _ & Hn & _).
  split; [|exact Hn].
  destruct Hw as [Hw _]; [reflexivity|]. exact Hw.
Defined.

(* ===================================================================== *)
(** * The allocation-accounting wrapper *)
(* ===================================================================== *)

(** An accepted declaration adds [delta] and changes nothing else. *)
Lemma DeclareSizeIncrease_accepted (p : ptr_width) (delta : Z) (mon mon' : Monitor) :
  DeclareSizeIncrease p delta mon = (None, mon') ->
  err mon = None /\ mon' = set_locationsUsed (addptr p (locationsUsed mon) delta) mon.
Proof.
  unfold DeclareSizeIncrease. destruct (err mon) as [e|] eqn:E; [discriminate|].
  cbn -[atomic_AddUintptr]. destruct (_ >=? _); [discriminate|].
  intros H. inversion H. split; reflexivity.
Qed.

Lemma Thread_DeclareSizeIncrease_monitor (p : ptr_width) (delta : Z) (context : string)
    (thread : Thread) :
  Thread_DeclareSizeIncrease p delta context thread =
    (fst (DeclareSizeIncrease p delta (monitor thread)),
     set_monitor (snd (DeclareSizeIncrease p delta (monitor thread))) thread).
Proof.
  unfold Thread_DeclareSizeIncrease.
  destruct (DeclareSizeIncrease p delta (monitor thread)); reflexivity.
Qed.

Section AccountingFacts.

Variable p : ptr_width.
Variables V W : Type.

Implicit Types (op : Operation V W) (sizeOf : Sizer V) (thread : Thread) (w : W).

(** On the paths that rules 1 to 4 settle, the wrapper returns a nil
    result or a nil error: a refused declaration, before or after the
    operation, comes with a nil result, and a success with a nil error.
    The operation is taken here to return no error; what the wrapper
    returns beside the error of a failing operation is the reading of
    rule 5 made in the definition, and nothing is proved of it. *)
Lemma nil_result_or_nil_error_when_operation_succeeds (opName : string) op
    (prealloc : Z) (resultSizeOf : option (Sizer V)) (s : State W) :
  (forall s' : State W, snd (fst (op s')) = None) ->
  let r := fst (fst (AccountAllocsForOperation p opName op prealloc resultSizeOf s)) in
  fst r = None \/ snd r = None.
Proof.
  intros Hop. destruct s as [thread w].
  unfold AccountAllocsForOperation, acct_bind, acct_ret, invoke, measure,
    declareSizeIncrease, declareSizeDecrease.
  destruct (negb (prealloc =? 0)).
  - destruct (Thread_DeclareSizeIncrease p prealloc opName thread) as [[e|] thread1].
    + simpl. left. reflexivity.
    + specialize (Hop (thread1, w)).
      destruct (op (thread1, w)) as [[result [e|]] [thread2 w2]]; simpl in Hop;
        [discriminate|]; simpl.
      destruct resultSizeOf as [sizeOf|]; simpl; [|right; reflexivity].
      destruct (_ >? _).
      * destruct (Thread_DeclareSizeIncrease p _ opName thread2) as [[e|] thread3]; simpl; auto.
      * destruct (_ <? _); simpl; auto.
  - simpl. specialize (Hop (thread, w)).
    destruct (op (thread, w)) as [[result [e|]] [thread2 w2]]; simpl in Hop;
      [discriminate|]; simpl.
    destruct resultSizeOf as [sizeOf|]; simpl; [|right; reflexivity].
    destruct (_ >? _).
    + destruct (Thread_DeclareSizeIncrease p _ opName thread2) as [[e|] thread3]; simpl; auto.
    + destruct (_ <? _); simpl; auto.
Qed.

(** Claim C3: with a non-zero estimate the wrapper first declares the
    estimate as a size increase.  When the declaration fails the wrapper
    returns a nil result and the error, which is the one now stored in
    the monitor, and it has done nothing else: the operation has not run
    and the state of the host is as it was.  When the declaration is
    accepted the operation runs next, once. *)
Theorem failed_predeclaration_skips_operation (opName : string) op (prealloc : Z)
    (resultSizeOf : option (Sizer V)) thread w :
  prealloc <> 0 ->
  let run := AccountAllocsForOperation p opName op prealloc resultSizeOf (thread, w) in
  match Thread_DeclareSizeIncrease p prealloc opName thread with
  | (Some e, thread') =>
      run = ((None, Some e), (thread', w), [EvDeclareSizeIncrease prealloc]) /\
      err (monitor thread') = Some e /\
      invocations (snd run) = 0%nat
  | (None, thread') =>
      exists rest : list event,
        snd run = EvDeclareSizeIncrease prealloc :: EvOperation :: rest /\
        invocations (snd run) = 1%nat
  end.
Proof.
  intros Hp run. subst run.
  unfold AccountAllocsForOperation, acct_bind, acct_ret, invoke, measure,
    declareSizeIncrease, declareSizeDecrease.
  apply Z.eqb_neq in Hp. rewrite Hp. change (negb false) with true. cbv beta iota.
  pose proof (Thread_DeclareSizeIncrease_monitor p prealloc opName thread) as Hm.
  destruct (Thread_DeclareSizeIncrease p prealloc opName thread) as [[e|] thread1] eqn:Ed.
  - simpl. split; [reflexivity|]. split; [|reflexivity].
    inversion Hm as [[He Ht]]. simpl.
    apply (DeclareSizeIncrease_returns_latch p (monitor thread) _ e prealloc).
    rewrite He. destruct (DeclareSizeIncrease p prealloc (monitor thread)); reflexivity.
  - destruct (op (thread1, w)) as [[result [e|]] [thread2 w2]]; simpl.
    + eexists. split; reflexivity.
    + destruct resultSizeOf as [sizeOf|]; simpl; [|eexists; split; reflexivity].
      destruct (_ >? _).
      * destruct (Thread_DeclareSizeIncrease p _ opName thread2) as [[e|] thread3];
          simpl; eexists; split; reflexivity.
      * destruct (_ <? _); simpl; eexists; split; reflexivity.
Qed.

(** A successful call with an estimate and a sizer leaves [locationsUsed]
    at its old value plus the measured size, modulo the width. *)
Lemma accounted_size (opName : string) op (prealloc : Z) sizeOf thread w
    (result : option V) thread' (w' : W) (log : list event) :
  prealloc <> 0 ->
  (forall s : State W, monitor (fst (snd (op s))) = monitor (fst s)) ->
  AccountAllocsForOperation p opName op prealloc (Some sizeOf) (thread, w)
    = ((result, None), (thread', w'), log) ->
  locationsUsed (monitor thread')
    = to_uintptr p (locationsUsed (monitor thread) + sizeOf result) /\
  invocations log = 1%nat.
Proof.
  intros Hp Hop.
  unfold AccountAllocsForOperation, acct_bind, acct_ret, invoke, measure,
    declareSizeIncrease, declareSizeDecrease.
  apply Z.eqb_neq in Hp. rewrite Hp. change (negb false) with true. cbv beta iota.
  rewrite Thread_DeclareSizeIncrease_monitor.
  destruct (DeclareSizeIncrease p prealloc (monitor thread)) as [[e|] mon1] eqn:E1;
    simpl; [discriminate|].
  apply DeclareSizeIncrease_accepted in E1. destruct E1 as [He0 Hm1]. subst mon1.
  match goal with
  | |- context [op ?s] =>
      specialize (Hop s); destruct (op s) as [[r [e|]] [thread2 w2]]; simpl;
        [discriminate|]
  end.
  simpl in Hop.
  assert (Hsum : forall x, to_uintptr p (x + to_uintptr p (sizeOf r))
                           = to_uintptr p (x + sizeOf r)).
  { intros x. unfold to_uintptr. apply Zplus_mod_idemp_r. }
  destruct (Z.gtb_spec (to_uintptr p (sizeOf r)) prealloc) as [Hgt|Hle].
  - rewrite Thread_DeclareSizeIncrease_monitor.
    destruct (DeclareSizeIncrease p _ (monitor thread2)) as [[e|] mon3] eqn:E3;
      simpl; [discriminate|].
    apply DeclareSizeIncrease_accepted in E3. destruct E3 as [_ Hm3]. subst mon3.
    intros H. inversion H; subst. simpl. split; [|reflexivity].
    rewrite Hop. simpl. rewrite addptr_addptr_subptr. apply Hsum.
  - destruct (Z.ltb_spec (to_uintptr p (sizeOf r)) prealloc) as [Hlt|Hge]; simpl.
    + intros H. inversion H; subst. simpl. split; [|reflexivity].
      unfold DeclareSizeDecrease. rewrite Hop. simpl. rewrite He0. simpl.
      unfold atomic_AddUintptr. rewrite addptr_addptr_negptr_subptr. apply Hsum.
    + intros H. inversion H; subst. split; [|reflexivity].
      rewrite Hop. simpl. rewrite <- Hsum. unfold addptr. f_equal; lia.
Qed.

End AccountingFacts.

Lemma failed_predeclaration_skips_operation_witness :
  101 <> 0 /\
  AccountAllocsForOperation W64 "pre-fail" op_dummyStr 101 None (prefail_thread, false)
    = ((None, Some (err_too_much_memory 101)),
       (set_monitor (mkMonitor 0 0 101 1 (Some (err_too_much_memory 101))) prefail_thread,
        false),
       [EvDeclareSizeIncrease 101]).
Proof.
  assert (H : 101 <> 0) by discriminate.
  split; [exact H|].
  exact (proj1 (failed_predeclaration_skips_operation W64 string bool "pre-fail"
                  op_dummyStr 101 None prefail_thread false H)).
Defined.

(** Claim C4: a successful call with a non-zero estimate and a sizer, on an
    operation that leaves the monitor alone, ends with [locationsUsed] at
    its old value plus the measured size, modulo the width, and not at the
    old value plus the estimate plus the measured size; the operation has
    run exactly once.  With an estimate of [100], a cap of [200] and a
    result of size [60] the call succeeds, [locationsUsed] ends at [60],
    not at [160], and the operation has run exactly once. *)
Theorem accounting_reconciles_by_subtraction :
  (forall (p : ptr_width) (V W : Type) (opName : string) (op : Operation V W)
          (prealloc : Z) (sizeOf : Sizer V) (thread : Thread) (w : W)
          (result : option V) (thread' : Thread) (w' : W) (log : list event),
      prealloc <> 0 ->
      is_uintptr p prealloc ->
      (forall s : State W, monitor (fst (snd (op s))) = monitor (fst s)) ->
      AccountAllocsForOperation p opName op prealloc (Some sizeOf) (thread, w)
        = ((result, None), (thread', w'), log) ->
      locationsUsed (monitor thread')
        = to_uintptr p (locationsUsed (monitor thread) + sizeOf result) /\
      locationsUsed (monitor thread')
        <> to_uintptr p (locationsUsed (monitor thread) + prealloc + sizeOf result) /\
      invocations log = 1%nat)
  /\
  (let run := AccountAllocsForOperation W64 "scenario" scenario_op 100 (Some strlenSizeOf)
                (scenario_thread, false) in
   locationsCap (monitor scenario_thread) = 200 /\
   strlenSizeOf (Some (dummyString 59 "a")) = 60 /\
   fst (fst run) = (Some (dummyString 59 "a"), None) /\
   locationsUsed (monitor (fst (snd (fst run)))) = 60 /\
   locationsUsed (monitor (fst (snd (fst run)))) <> 160 /\
   snd (snd (fst run)) = true /\
   snd run = [EvDeclareSizeIncrease 100; EvOperation; EvSizer 60; EvDeclareSizeDecrease 40] /\
   invocations (snd run) = 1%nat).
Proof.
  split.
  - intros p V W opName op prealloc sizeOf thread w result thread' w' log Hp Hr Hop Hrun.
    destruct (accounted_size p V W opName op prealloc sizeOf thread w result thread' w' log
                Hp Hop Hrun) as [Hu Hi].
    split; [exact Hu|]. split; [|exact Hi].
    rewrite Hu. unfold to_uintptr. intros Heq.
    pose proof (uintptr_modulus_pos p) as Hpos.
    assert (Hz : prealloc mod uintptr_modulus p = 0).
    { replace prealloc
        with ((locationsUsed (monitor thread) + prealloc + sizeOf result)
              - (locationsUsed (monitor thread) + sizeOf result)) by lia.
      rewrite Zminus_mod, <- Heq, Z.sub_diag. apply Z.mod_0_l. lia. }
    rewrite Z.mod_small in Hz by exact Hr. contradiction.
  - vm_compute. repeat split; discriminate.
Qed.

Lemma accounting_reconciles_by_subtraction_witness :
  100 <> 0 /\ is_uintptr W64 100 /\
  (forall s : State bool, monitor (fst (snd (scenario_op s))) = monitor (fst s)) /\
  locationsUsed (monitor (set_monitor (set_locationsUsed 60 (monitor scenario_thread))
                            scenario_thread))
    = to_uintptr W64 (locationsUsed (monitor scenario_thread)
                      + strlenSizeOf (Some (dummyString 59 "a"))).
Proof.
  assert (Hp : 100 <> 0) by discriminate.
  assert (Hr : is_uintptr W64 100) by (split; [discriminate|reflexivity]).
  assert (Hop : forall s : State bool, monitor (fst (snd (scenario_op s))) = monitor (fst s))
    by (intros [thread w]; reflexivity).
  split; [exact Hp|]. split; [exact Hr|]. split; [exact Hop|].
  exact (proj1 (proj1 accounting_reconciles_by_subtraction W64 string bool "scenario"%string
                  scenario_op 100 strlenSizeOf scenario_thread false
                  (Some (dummyString 59 "a"))
                  (set_monitor (set_locationsUsed 60 (monitor scenario_thread)) scenario_thread)
                  true
                  [EvDeclareSizeIncrease 100; EvOperation; EvSizer 60; EvDeclareSizeDecrease 40]
                  Hp Hr Hop eq_refl)).
Defined.

(** The wrapper passes every entry of the table of
    [TestAllocAccountingWrapper], on both widths. *)
Lemma TestAllocAccountingWrapper_passes (p : ptr_width) :
  forallb (run_accounting_test p) accountingTests = true.
Proof. destruct p; vm_compute; reflexivity. Qed.

(* ===================================================================== *)
(** * The step estimator *)
(* ===================================================================== *)

(** Multiplication distributes over addition on [uint64]. *)
Lemma mul64_add64_distr (n x y : Z) :
  mul64 n (add64 x y) = add64 (mul64 n x) (mul64 n y).
Proof.
  unfold mul64, add64, to_uint64.
  rewrite Zmult_mod_idemp_r, <- Zplus_mod. f_equal; ring.
Qed.

Section EstimatorFacts.

Variable SourceProgram : string -> option (list Z).
Variable OpcodeArgMin : Z.

(** A successful estimate is a [uint64]. *)
Lemma EstimateSteps_range (code : string) (s : Z) :
  EstimateSteps SourceProgram OpcodeArgMin code = Some (s, None) -> is_uint64 s.
Proof.
  unfold EstimateSteps. destruct (SourceProgram code) as [byteCode|]; [|discriminate].
  destruct (count_steps OpcodeArgMin byteCode false 0) as [steps|]; [|discriminate].
  intros H. inversion H. apply to_uint64_range.
Qed.

(** The estimator is a function of the byte code: it fails exactly when
    the compiler does. *)
Lemma EstimateSteps_error (code : string) :
  SourceProgram code = None ->
  EstimateSteps SourceProgram OpcodeArgMin code = Some (0, Some (err_failed_to_parse code)) /\
  forall n : Z,
    EstimateIterSteps SourceProgram OpcodeArgMin code n
      = Some (0, Some (err_failed_to_parse code)).
Proof.
  intros H. unfold EstimateIterSteps, EstimateSteps. rewrite H. split; reflexivity.
Qed.

(** Claim C7: when the estimate of a snippet succeeds with [s] steps, the
    estimate for [n] runs in a loop is [n * s + n * 6] in the arithmetic
    of [uint64], [6] being the overhead of an iteration; it is that
    number itself when [n] is not negative and the product fits in 64
    bits; for [n = 10] it is [10 * s + 10 * 6]. *)
Theorem EstimateIterSteps_linear (code : string) (n s : Z) :
  EstimateSteps SourceProgram OpcodeArgMin code = Some (s, None) ->
  EstimateIterSteps SourceProgram OpcodeArgMin code n
    = Some (add64 (mul64 (to_uint64 n) s) (mul64 (to_uint64 n) iterOverhead), None) /\
  iterOverhead = 6 /\
  (0 <= n -> n * (s + 6) < uint64_modulus ->
     EstimateIterSteps SourceProgram OpcodeArgMin code n = Some (n * s + n * 6, None)) /\
  EstimateIterSteps SourceProgram OpcodeArgMin code 10
    = Some (add64 (mul64 10 s) (mul64 10 iterOverhead), None).
Proof.
  intros H. pose proof (EstimateSteps_range code s H) as Hs.
  assert (Hn : forall m : Z,
             EstimateIterSteps SourceProgram OpcodeArgMin code m
               = Some (add64 (mul64 (to_uint64 m) s) (mul64 (to_uint64 m) iterOverhead),
                       None)).
  { intros m. unfold EstimateIterSteps. rewrite H. rewrite mul64_add64_distr. reflexivity. }
  split; [apply Hn|]. split; [reflexivity|]. split; [|apply Hn].
  intros Hn0 Hfit. unfold EstimateIterSteps. rewrite H.
  do 2 f_equal. unfold mul64, add64, to_uint64, iterOverhead.
  unfold is_uint64 in Hs.
  rewrite Zmult_mod_idemp_r.
  assert (Hlt : n < uint64_modulus) by nia.
  rewrite (Z.mod_small n) by lia.
  rewrite Z.mod_small by nia. ring.
Qed.

End EstimatorFacts.

Lemma EstimateIterSteps_linear_witness :
  EstimateSteps toy_SourceProgram toy_OpcodeArgMin ("x = 1" ++ newline ++ "y = 2")
    = Some (4, None) /\
  EstimateIterSteps toy_SourceProgram toy_OpcodeArgMin ("x = 1" ++ newline ++ "y = 2") 10
    = Some (100, None).
Proof.
  assert (H : EstimateSteps toy_SourceProgram toy_OpcodeArgMin ("x = 1" ++ newline ++ "y = 2")
              = Some (4, None)) by reflexivity.
  split; [exact H|].
  exact (proj2 (proj2 (proj2 (EstimateIterSteps_linear toy_SourceProgram toy_OpcodeArgMin
                                ("x = 1" ++ newline ++ "y = 2") 10 4 H)))).
Defined.

(* ===================================================================== *)
(** * Safety flags *)
(* ===================================================================== *)

Lemma land_lor_absorb_l (a b : Z) : Z.land (Z.lor a b) a = a.
Proof.
  apply Z.bits_inj'. intros n Hn.
  rewrite Z.land_spec, Z.lor_spec. destruct (Z.testbit a n), (Z.testbit b n); reflexivity.
Qed.

Lemma land_lor_absorb_r (a b : Z) : Z.land (Z.lor a b) b = b.
Proof. rewrite Z.lor_comm. apply land_lor_absorb_l. Qed.

(** [Contains] is the subset test on the bits. *)
Lemma Contains_spec (a b : Safety) :
  Contains a b = true <-> forall n : Z, Z.testbit b n = true -> Z.testbit a n = true.
Proof.
  unfold Contains. rewrite Z.eqb_eq. split.
  - intros H n Hb. rewrite <- H, Z.land_spec in Hb. apply andb_true_iff in Hb. tauto.
  - intros H. apply Z.bits_inj. intros n. rewrite Z.land_spec.
    specialize (H n). destruct (Z.testbit b n); [rewrite H; reflexivity|apply andb_false_r].
Qed.

(** Claim C8: the union of two sets of flags contains each of the two, and
    the constant [Safe] is the union of the four named flags. *)
Theorem union_Contains_and_Safe (a b : Safety) :
  Contains (union a b) a = true /\
  Contains (union a b) b = true /\
  Safe = union (union (union CPUSafe MemSafe) TimeSafe) IOSafe /\
  Safe = fold_right union 0 named_flags /\
  Safe = stSafe.
Proof.
  unfold Contains, union.
  rewrite land_lor_absorb_l, land_lor_absorb_r, !Z.eqb_refl.
  repeat split.
Qed.

(* ===================================================================== *)
(** * The measurement harness *)
(* ===================================================================== *)

Section RunThreadFacts.

Import startest.

Variable measureResources : ST -> Thread -> resources * ST * Thread.

Lemma Failed_In (msg : string) (st : ST) : In msg (reported st) -> Failed st = true.
Proof. unfold Failed. destruct (reported st); [contradiction|reflexivity]. Qed.

Lemma gtb_false_gt (x y : Z) : (x >? y) = false -> x > y -> False.
Proof. rewrite Z.gtb_ltb. intros H. apply Z.ltb_ge in H. lia. Qed.

(** Every conditional of [RunThread] whose test has no conditional inside
  is split, innermost first. *)
Ltac split_tests :=
repeat match goal with
       | |- context [if ?c then _ else _] =>
           lazymatch c with
           | context [if _ then _ else _] => fail
           | _ => idtac
           end;
           let E := fresh "E" in
           destruct c eqn:E;
           cbn [requiredSafety maxAllocs maxExecutionSteps reported Errorf] in *
       end.

(** A run that has failed by the end of the measurement is returned as it
    is: no mean is computed and nothing more is reported. *)
Lemma RunThread_failed_run (st : ST) (res : resources) (st2 : ST) (thread : Thread) :
  let st1 := if negb (safetyGiven st) then set_requiredSafety stSafe st else st in
  measureResources st1 (Thread_RequireSafety (requiredSafety st1) zeroThread)
    = (res, st2, thread) ->
  Failed st2 = true ->
  RunThread measureResources st = Some st2.
Proof.
  intros st1 Hm Hf. unfold RunThread. fold st1. rewrite Hm, Hf. reflexivity.
Qed.

(** Claim C6: a run that requires [MemSafe] has failed when [RunThread]
    returns if the mean of the declared allocations, the allocation count
    of the thread divided by the sum of the repeat counts, is above the
    ceiling, and it has failed if the mean of the measured memory is above
    the mean of the declared allocations.  In a run that had not failed by
    the end of the measurement, each of the two is reported with an error
    of its own, whether or not the other is. *)
Theorem RunThread_declared_allocs_two_sided (st : ST) (res : resources) (st2 : ST)
    (thread : Thread) :
  let st1 := if negb (safetyGiven st) then set_requiredSafety stSafe st else st in
  measureResources st1 (Thread_RequireSafety (requiredSafety st1) zeroThread)
    = (res, st2, thread) ->
  (Failed st2 = false -> nSum res <> 0) ->
  Contains (requiredSafety st2) MemSafe = true ->
  let meanMeasuredAllocs := memorySum res / nSum res in
  let meanDeclaredAllocs := Thread_Allocs thread / nSum res in
  exists st' : ST,
    RunThread measureResources st = Some st' /\
    (meanDeclaredAllocs > maxAllocs st2 ->
       Failed st' = true /\
       (Failed st2 = false ->
          In (msg_declared_above_maximum meanDeclaredAllocs (maxAllocs st2))
            (reported st'))) /\
    (meanMeasuredAllocs > meanDeclaredAllocs ->
       Failed st' = true /\
       (Failed st2 = false ->
          In (msg_measured_above_declared meanMeasuredAllocs meanDeclaredAllocs)
            (reported st'))).
Proof.
  intros st1 Hm Hn Hc meanMeasuredAllocs meanDeclaredAllocs.
  destruct (Failed st2) eqn:Hf.
  { exists st2. split; [apply (RunThread_failed_run st res st2 thread Hm Hf)|].
    split; intros _; (split; [exact Hf | discriminate]). }
  specialize (Hn eq_refl).
  unfold RunThread. fold st1. rewrite Hm, Hf.
  apply Z.eqb_neq in Hn. rewrite Hn.
  eexists. split; [reflexivity|].
  cbv zeta. fold meanMeasuredAllocs meanDeclaredAllocs.
  split; intros Hgt;
    split_tests; try congruence;
    try (exfalso; refine (gtb_false_gt _ _ _ Hgt); assumption);
    match goal with
    | |- _ /\ (_ -> In ?m ?l) =>
        assert (Hl : In m l) by (rewrite ?in_app_iff; cbn [In]; auto 12);
        split; [eapply Failed_In; exact Hl | intros _; exact Hl]
    end.
Qed.

End RunThreadFacts.

Lemma RunThread_declared_allocs_two_sided_witness :
  exists st' : startest.ST,
    startest.RunThread sample_measureResources sample_ST = Some st' /\
    startest.Failed st' = true /\
    In "declared allocations are above maximum (5 > 3)"%string (startest.reported st') /\
    In "measured memory is above declared allocations (100 > 5)"%string
      (startest.reported st').
Proof.
  assert (Hn : 10 <> 0) by discriminate.
  destruct (RunThread_declared_allocs_two_sided sample_measureResources sample_ST
              (startest.mkResources 1000 0 10)
              (startest.set_requiredSafety stSafe sample_ST)
              (set_monitor (set_locationsUsed 50 zeroMonitor)
                 (Thread_RequireSafety stSafe zeroThread))
              eq_refl (fun _ => Hn) eq_refl) as (st' & Hrun & Hd & Hm).
  exists st'. split; [exact Hrun|]. split; [exact (proj1 (Hd eq_refl))|]. split.
  - exact (proj2 (Hd eq_refl) eq_refl).
  - exact (proj2 (Hm eq_refl) eq_refl).
Defined.

(* ===================================================================== *)
(** * Further facts about the monitor *)
(* ===================================================================== *)

Lemma uint64_modulus_eq : uint64_modulus = 18446744073709551616.
Proof. reflexivity. Qed.

(** [initMonitor] in closed form. *)
Lemma initMonitor_eq (p : ptr_width) (DefaultLocationsCap : Z) (mon : Monitor) :
  initMonitor p DefaultLocationsCap mon =
  mkMonitor (steps mon)
    (if maxSteps mon =? 0 then MaxUint64 else maxSteps mon)
    (locationsUsed mon)
    (if locationsCap mon =? 0
     then if to_uintptr p DefaultLocationsCap =? 0 then MaxUintptr p
          else to_uintptr p DefaultLocationsCap
     else locationsCap mon)
    (err mon).
Proof.
  destruct mon as [s ms u c e].
  unfold initMonitor, set_locationsCap, set_maxSteps.
  cbn [steps maxSteps locationsUsed locationsCap err].
  destruct (Z.eqb_spec c 0) as [Hc|Hc];
    [destruct (Z.eqb_spec (to_uintptr p DefaultLocationsCap) 0) as [Hd|Hd]|];
    cbn [negb steps maxSteps locationsUsed locationsCap err];
    destruct (Z.eqb_spec ms 0) as [Hm|Hm]; subst;
    try reflexivity; destruct p; reflexivity.
Qed.

(** [initMonitor] leaves no cap at zero: a zero memory cap becomes the
    default of the flag, or the largest [uintptr] when that default is
    zero too, and a zero step cap becomes the largest [uint64]; caps that
    are set are kept, the counters and the latch are not touched, and a
    second call changes nothing. *)
Theorem initMonitor_fills_zero_caps (p : ptr_width) (DefaultLocationsCap : Z)
    (mon : Monitor) :
  let mon' := initMonitor p DefaultLocationsCap mon in
  locationsCap mon' <> 0 /\
  maxSteps mon' <> 0 /\
  (locationsCap mon <> 0 -> locationsCap mon' = locationsCap mon) /\
  (locationsCap mon = 0 ->
     locationsCap mon' = if to_uintptr p DefaultLocationsCap =? 0 then MaxUintptr p
                         else to_uintptr p DefaultLocationsCap) /\
  (maxSteps mon <> 0 -> maxSteps mon' = maxSteps mon) /\
  (maxSteps mon = 0 -> maxSteps mon' = MaxUint64) /\
  steps mon' = steps mon /\
  locationsUsed mon' = locationsUsed mon /\
  err mon' = err mon /\
  initMonitor p DefaultLocationsCap mon' = mon'.
Proof.
  intros mon'. subst mon'. rewrite !initMonitor_eq.
  cbn [steps maxSteps locationsUsed locationsCap err].
  assert (Hmax : MaxUintptr p <> 0) by (destruct p; discriminate).
  assert (H64 : MaxUint64 <> 0) by discriminate.
  set (dflt := to_uintptr p DefaultLocationsCap).
  assert (Hcap : (if locationsCap mon =? 0
                  then if dflt =? 0 then MaxUintptr p else dflt
                  else locationsCap mon) <> 0).
  { destruct (Z.eqb_spec (locationsCap mon) 0); [|assumption].
    destruct (Z.eqb_spec dflt 0); assumption. }
  assert (Hsteps : (if maxSteps mon =? 0 then MaxUint64 else maxSteps mon) <> 0).
  { destruct (Z.eqb_spec (maxSteps mon) 0); assumption. }
  split; [exact Hcap|]. split; [exact Hsteps|].
  split; [intros H; apply Z.eqb_neq in H; rewrite H; reflexivity|].
  split; [intros H; rewrite H; reflexivity|].
  split; [intros H; apply Z.eqb_neq in H; rewrite H; reflexivity|].
  split; [intros H; rewrite H; reflexivity|].
  split; [reflexivity|]. split; [reflexivity|]. split; [reflexivity|].
  apply Z.eqb_neq in Hcap, Hsteps. rewrite Hcap, Hsteps. reflexivity.
Qed.

(** [k] steps add [k] to the step counter, modulo [2^64], and change
    nothing else. *)
Lemma countSteps_fields (k : nat) (mon : Monitor) :
  is_uint64 (steps mon) ->
  steps (countSteps k mon) = to_uint64 (steps mon + Z.of_nat k) /\
  maxSteps (countSteps k mon) = maxSteps mon /\
  locationsUsed (countSteps k mon) = locationsUsed mon /\
  locationsCap (countSteps k mon) = locationsCap mon /\
  err (countSteps k mon) = err mon.
Proof.
  intros Hr. induction k as [|k IH].
  - unfold countSteps. cbn [Nat.iter]. rewrite Z.add_0_r, to_uint64_id by exact Hr.
    repeat split.
  - unfold countSteps in *.
    change (Nat.iter (S k) countStep mon) with (countStep (Nat.iter k countStep mon)).
    destruct IH as (Hs & Hm & Hu & Hc & He).
    set (mon' := Nat.iter k countStep mon) in *.
    change (steps (countStep mon')) with (add64 (steps mon') 1).
    change (maxSteps (countStep mon')) with (maxSteps mon').
    change (locationsUsed (countStep mon')) with (locationsUsed mon').
    change (locationsCap (countStep mon')) with (locationsCap mon').
    change (err (countStep mon')) with (err mon').
    rewrite Hs. repeat split; try assumption.
    unfold add64, to_uint64. rewrite Zplus_mod_idemp_l. f_equal; lia.
Qed.

(** A step limit of [L] allows fewer than [L] steps: on a monitor that
    starts at zero steps with no stored error, [CheckUsage] after [k]
    counted steps returns nil when [k < L], and stores and returns the
    error "too many steps" when [L <= k], for every [k] below [2^64]. *)
Theorem step_limit_budget (k : nat) (mon : Monitor) :
  err mon = None ->
  steps mon = 0 ->
  Z.of_nat k < uint64_modulus ->
  (Z.of_nat k < maxSteps mon ->
     CheckUsage (countSteps k mon) = (None, countSteps k mon)) /\
  (maxSteps mon <= Z.of_nat k ->
     CheckUsage (countSteps k mon)
       = (Some err_too_many_steps, set_err (Some err_too_many_steps) (countSteps k mon))).
Proof.
  intros He Hs Hk.
  assert (Hr : is_uint64 (steps mon)) by (rewrite Hs; split; [lia|reflexivity]).
  destruct (countSteps_fields k mon Hr) as (Hst & Hm & _ & _ & Herr).
  assert (Hsteps : steps (countSteps k mon) = Z.of_nat k).
  { rewrite Hst, Hs. apply to_uint64_id. unfold is_uint64. lia. }
  rewrite He in Herr.
  destruct (CheckUsage_unlatched (countSteps k mon) Herr) as [Hlt Hge].
  rewrite Hsteps, Hm in Hlt, Hge. split; assumption.
Qed.

Lemma step_limit_budget_witness :
  CheckUsage (countSteps 4 (snd (SetMaxExecutionSteps 5 zeroMonitor)))
    = (None, countSteps 4 (snd (SetMaxExecutionSteps 5 zeroMonitor))) /\
  fst (CheckUsage (countSteps 5 (snd (SetMaxExecutionSteps 5 zeroMonitor))))
    = Some err_too_many_steps.
Proof.
  split.
  - exact (proj1 (step_limit_budget 4 (snd (SetMaxExecutionSteps 5 zeroMonitor))
                    eq_refl eq_refl eq_refl) eq_refl).
  - rewrite (proj2 (step_limit_budget 5 (snd (SetMaxExecutionSteps 5 zeroMonitor))
                      eq_refl eq_refl eq_refl)); [reflexivity|discriminate].
Defined.

(** A monitor whose step cap is zero fails its first [CheckUsage], before
    any step is counted, unless [initMonitor] has run on it: after
    [initMonitor] the zero cap stands for no limit, and the check passes
    as long as the counter is below the largest [uint64]. *)
Theorem zero_step_cap_needs_initMonitor (p : ptr_width) (DefaultLocationsCap : Z)
    (mon : Monitor) :
  err mon = None ->
  maxSteps mon = 0 ->
  is_uint64 (steps mon) ->
  CheckUsage mon = (Some err_too_many_steps, set_err (Some err_too_many_steps) mon) /\
  (steps mon <> MaxUint64 ->
     CheckUsage (initMonitor p DefaultLocationsCap mon)
       = (None, initMonitor p DefaultLocationsCap mon)).
Proof.
  intros He Hm Hs. unfold is_uint64 in Hs. rewrite uint64_modulus_eq in Hs. split.
  - apply (CheckUsage_unlatched mon He). lia.
  - intros Hne.
    rewrite initMonitor_eq, Hm. cbn [Z.eqb].
    match goal with
    | |- CheckUsage ?m = _ => apply (proj1 (CheckUsage_unlatched m He))
    end.
    cbn [steps maxSteps]. unfold MaxUint64 in *. rewrite uint64_modulus_eq in *. lia.
Qed.

Lemma zero_step_cap_needs_initMonitor_witness :
  fst (CheckUsage zeroMonitor) = Some err_too_many_steps /\
  fst (CheckUsage freshMonitor) = None.
Proof.
  assert (Hs : is_uint64 (steps zeroMonitor)) by (split; [discriminate|reflexivity]).
  destruct (zero_step_cap_needs_initMonitor W64 DefaultLocationsCap_default zeroMonitor
              eq_refl eq_refl Hs) as [H1 H2].
  split.
  - rewrite H1. reflexivity.
  - unfold freshMonitor. rewrite H2; [reflexivity|discriminate].
Defined.

Section MoreMonitorFacts.

Variable p : ptr_width.

(** What [DeclareSizeIncrease] does on a monitor with no stored error. *)
Lemma DeclareSizeIncrease_unlatched (mon : Monitor) (delta : Z) :
  err mon = None ->
  let total := to_uintptr p (locationsUsed mon + delta) in
  (total < locationsCap mon ->
     DeclareSizeIncrease p delta mon = (None, set_locationsUsed total mon)) /\
  (locationsCap mon <= total ->
     DeclareSizeIncrease p delta mon
       = (Some (err_too_much_memory delta),
          set_err (Some (err_too_much_memory delta)) (set_locationsUsed total mon))).
Proof.
  intros He total. unfold DeclareSizeIncrease. rewrite He.
  cbn [locationsUsed locationsCap set_locationsUsed].
  unfold atomic_AddUintptr, addptr. fold total. split; intros H.
  - destruct (Z.geb_spec total (locationsCap mon)); [lia|reflexivity].
  - destruct (Z.geb_spec total (locationsCap mon)); [reflexivity|lia].
Qed.

(** A declaration that is accepted is taken back in full by the decrease
    of the same size; one that fails is not: the units stay counted and
    the decrease is ignored. *)
Theorem increase_then_decrease (mon : Monitor) (delta : Z) :
  err mon = None ->
  is_uintptr p (locationsUsed mon) ->
  let mon1 := snd (DeclareSizeIncrease p delta mon) in
  let mon2 := DeclareSizeDecrease p delta mon1 in
  (fst (DeclareSizeIncrease p delta mon) = None -> mon2 = mon) /\
  (fst (DeclareSizeIncrease p delta mon) <> None ->
     mon2 = mon1 /\
     locationsUsed mon2 = to_uintptr p (locationsUsed mon + delta) /\
     locationsCap mon <= locationsUsed mon2).
Proof.
  intros He Hu mon1 mon2.
  destruct (DeclareSizeIncrease_unlatched mon delta He) as [Hlt Hge].
  cbv zeta in Hlt, Hge.
  destruct (Z.lt_ge_cases (to_uintptr p (locationsUsed mon + delta)) (locationsCap mon))
    as [H|H].
  - specialize (Hlt H). subst mon2 mon1. rewrite Hlt. cbn [fst snd]. split; [|congruence].
    intros _. unfold DeclareSizeDecrease. cbn [err set_locationsUsed locationsUsed]. rewrite He.
    unfold atomic_AddUintptr. rewrite addptr_negptr.
    unfold to_uintptr. rewrite Zminus_mod_idemp_l.
    replace (locationsUsed mon + delta - delta) with (locationsUsed mon) by lia.
    rewrite Z.mod_small by exact Hu.
    destruct mon; reflexivity.
  - specialize (Hge H). subst mon2 mon1. rewrite Hge. cbn [fst snd]. split; [discriminate|].
    intros _. unfold DeclareSizeDecrease. cbn [err set_err set_locationsUsed locationsUsed].
    repeat split. exact H.
Qed.

(** An increase that carries the counter past the largest [uintptr] is
    not noticed: the counter wraps to a smaller value, which is compared
    with the cap, and the declaration is accepted when that value is
    below the cap. *)
Theorem DeclareSizeIncrease_wraps_unnoticed (mon : Monitor) (delta : Z) :
  err mon = None ->
  is_uintptr p (locationsUsed mon) ->
  is_uintptr p delta ->
  uintptr_modulus p <= locationsUsed mon + delta ->
  locationsUsed mon + delta - uintptr_modulus p < locationsCap mon ->
  DeclareSizeIncrease p delta mon
    = (None, set_locationsUsed (locationsUsed mon + delta - uintptr_modulus p) mon) /\
  locationsUsed (snd (DeclareSizeIncrease p delta mon)) < locationsUsed mon.
Proof.
  intros He Hu Hd Hov Hcap. unfold is_uintptr in Hu, Hd.
  assert (Ht : to_uintptr p (locationsUsed mon + delta)
               = locationsUsed mon + delta - uintptr_modulus p).
  { unfold to_uintptr. symmetry. apply (Z.mod_unique _ _ 1); [left; lia | lia]. }
  destruct (DeclareSizeIncrease_unlatched mon delta He) as [Hlt _]. cbv zeta in Hlt.
  rewrite Ht in Hlt. rewrite (Hlt Hcap). split; [reflexivity|].
  cbn [snd locationsUsed set_locationsUsed]. lia.
Qed.

(** Once a monitor is in use its caps are fixed: through any sequence of
    calls that is too short to wrap the step counter, the step limit and
    the memory cap keep their values and the monitor stays in use. *)
Theorem caps_fixed_once_in_use (cs : list call) (mon : Monitor) :
  InUse mon = true ->
  is_uint64 (steps mon) ->
  steps mon + Z.of_nat (List.length cs) < uint64_modulus ->
  maxSteps (snd (do_calls p cs mon)) = maxSteps mon /\
  locationsCap (snd (do_calls p cs mon)) = locationsCap mon /\
  InUse (snd (do_calls p cs mon)) = true.
Proof.
  revert mon. induction cs as [|c cs IH]; intros mon Hin Hr Hlen.
  - cbn. auto.
  - cbn [do_calls List.length] in *. rewrite Nat2Z.inj_succ in Hlen.
    assert (Hstep : maxSteps (snd (do_call p c mon)) = maxSteps mon /\
                    locationsCap (snd (do_call p c mon)) = locationsCap mon /\
                    steps mon <= steps (snd (do_call p c mon)) <= steps mon + 1).
    { unfold is_uint64 in Hr. rewrite uint64_modulus_eq in Hr, Hlen.
      destruct c; cbn [do_call snd].
      - unfold CheckUsage. destruct (err mon); [cbn; lia|].
        destruct (_ >=? _); cbn; lia.
      - unfold countStep, add64, to_uint64. rewrite uint64_modulus_eq.
        cbn [steps maxSteps locationsCap set_steps].
        rewrite Z.mod_small by lia. lia.
      - unfold SetMaxExecutionSteps. rewrite Hin. cbn. lia.
      - unfold SetLocationsCap. rewrite Hin. cbn. lia.
      - rewrite DeclareSizeIncrease_steps.
        unfold DeclareSizeIncrease. destruct (err mon); [cbn; lia|].
        cbn -[atomic_AddUintptr]. destruct (_ >=? _); cbn -[atomic_AddUintptr]; lia.
      - unfold DeclareSizeDecrease. destruct (err mon); cbn -[atomic_AddUintptr]; lia. }
    destruct Hstep as (Hm & Hc & Hs).
    destruct (do_call p c mon) as [r mon1]. cbn [snd] in *.
    assert (Hin1 : InUse mon1 = true).
    { unfold InUse in *. apply Z.gtb_lt in Hin. apply Z.gtb_lt. lia. }
    assert (Hr1 : is_uint64 (steps mon1)) by (unfold is_uint64 in *; lia).
    assert (Hlen1 : steps mon1 + Z.of_nat (List.length cs) < uint64_modulus) by lia.
    destruct (IH mon1 Hin1 Hr1 Hlen1) as (IHm & IHc & IHi).
    destruct (do_calls p cs mon1) as [rs mon2]. cbn [snd] in *.
    split; [congruence|]. split; [congruence|exact IHi].
Qed.

End MoreMonitorFacts.

Lemma increase_then_decrease_witness :
  DeclareSizeDecrease W64 1000 (snd (DeclareSizeIncrease W64 1000 freshMonitor)) = freshMonitor /\
  locationsUsed (DeclareSizeDecrease W64 101 latchedMonitor) = 101.
Proof.
  assert (Hf : is_uintptr W64 (locationsUsed freshMonitor)) by (split; [discriminate|reflexivity]).
  assert (Hz : is_uintptr W64 (locationsUsed (snd (SetLocationsCap 1 zeroMonitor))))
    by (split; [discriminate|reflexivity]).
  split.
  - exact (proj1 (increase_then_decrease W64 freshMonitor 1000 eq_refl Hf) eq_refl).
  - destruct (proj2 (increase_then_decrease W64 (snd (SetLocationsCap 1 zeroMonitor)) 101
                       eq_refl Hz)) as (_ & H & _); [discriminate|exact H].
Defined.

Lemma DeclareSizeIncrease_wraps_unnoticed_witness :
  DeclareSizeIncrease W64 18446744073709551615 declaredMonitor
    = (None, set_locationsUsed 999 declaredMonitor).
Proof.
  assert (Hu : is_uintptr W64 (locationsUsed declaredMonitor))
    by (split; [discriminate|reflexivity]).
  assert (Hd : is_uintptr W64 18446744073709551615) by (split; [discriminate|reflexivity]).
  assert (Hov : uintptr_modulus W64 <= locationsUsed declaredMonitor + 18446744073709551615)
    by discriminate.
  assert (Hcap : locationsUsed declaredMonitor + 18446744073709551615 - uintptr_modulus W64
                 < locationsCap declaredMonitor) by reflexivity.
  exact (proj1 (DeclareSizeIncrease_wraps_unnoticed W64 declaredMonitor 18446744073709551615
                  eq_refl Hu Hd Hov Hcap)).
Defined.

Lemma caps_fixed_once_in_use_witness :
  maxSteps (snd (do_calls W64 sample_calls (countStep freshMonitor))) = MaxUint64 /\
  locationsCap (snd (do_calls W64 sample_calls (countStep freshMonitor))) = 32767.
Proof.
  assert (Hr : is_uint64 (steps (countStep freshMonitor)))
    by (split; [discriminate|reflexivity]).
  assert (Hlen : steps (countStep freshMonitor) + Z.of_nat (List.length sample_calls)
                 < uint64_modulus) by reflexivity.
  destruct (caps_fixed_once_in_use W64 sample_calls (countStep freshMonitor) eq_refl Hr Hlen)
    as (Hm & Hc & _).
  split; [exact Hm | exact Hc].
Defined.

(* ===================================================================== *)
(** * Further facts about the step estimator *)
(* ===================================================================== *)

Section MoreEstimatorFacts.

Variable SourceProgram : string -> option (list Z).
Variable OpcodeArgMin : Z.

(** Inside an operand the walk skips the bytes with the continuation bit
    and the byte that ends the operand. *)
Lemma count_steps_operand (more : list Z) (last : Z) (rest : list Z) (steps : Z) :
  Forall (fun b => 128 <= b) more ->
  last < 128 ->
  count_steps OpcodeArgMin (more ++ last :: rest) true steps
    = count_steps OpcodeArgMin rest false steps.
Proof.
  intros Hmore Hlast. induction Hmore as [|b more Hb _ IH]; cbn [app count_steps].
  - destruct (Z.ltb_spec last 128); [reflexivity|lia].
  - destruct (Z.ltb_spec b 128); [lia|exact IH].
Qed.

(** An operand that is cut off makes the walk run past the end. *)
Lemma count_steps_cut_operand (more : list Z) (steps : Z) :
  Forall (fun b => 128 <= b) more ->
  count_steps OpcodeArgMin more true steps = None.
Proof.
  intros Hmore. induction Hmore as [|b more Hb _ IH]; cbn [count_steps].
  - reflexivity.
  - destruct (Z.ltb_spec b 128); [lia|exact IH].
Qed.

(** Over a sequence of whole instructions the walk counts one step for
    each. *)
Lemma count_steps_program (prog : list instruction) (rest : list Z) (steps : Z) :
  Forall (instruction_wf OpcodeArgMin) prog ->
  0 <= steps ->
  steps + Z.of_nat (List.length prog) < uint64_modulus ->
  count_steps OpcodeArgMin (encode_program prog ++ rest) false steps
    = count_steps OpcodeArgMin rest false (steps + Z.of_nat (List.length prog)).
Proof.
  intros Hwf. revert steps.
  induction Hwf as [|i prog Hi _ IH]; intros steps H0 Hlen.
  - cbn. rewrite Z.add_0_r. reflexivity.
  - cbn [List.length] in Hlen. rewrite Nat2Z.inj_succ in Hlen.
    unfold encode_program in *. cbn [flat_map]. unfold encode_instruction at 1.
    rewrite <- !app_comm_cons, <- app_assoc. cbn [count_steps].
    assert (Hadd : add64 steps 1 = steps + 1).
    { apply to_uint64_id. unfold is_uint64. lia. }
    rewrite Hadd. unfold instruction_wf in Hi.
    destruct (opcode i >=? OpcodeArgMin).
    + destruct Hi as (more & last & Heq & Hmore & Hlast). rewrite Heq.
      rewrite <- app_assoc. cbn [app].
      rewrite count_steps_operand by assumption.
      rewrite IH by lia. cbn [List.length]. rewrite Nat2Z.inj_succ. f_equal; lia.
    + rewrite Hi. cbn [app]. rewrite IH by lia.
      cbn [List.length]. rewrite Nat2Z.inj_succ. f_equal; lia.
Qed.

(** The estimate of a snippet is the number of instructions of its byte
    code less three, whatever the lengths of the operands: for byte code
    of at least three instructions it is that number, and for shorter
    byte code the subtraction wraps around [2^64]. *)
Theorem EstimateSteps_counts_instructions (code : string) (prog : list instruction) :
  SourceProgram code = Some (encode_program prog) ->
  Forall (instruction_wf OpcodeArgMin) prog ->
  Z.of_nat (List.length prog) < uint64_modulus ->
  let count := Z.of_nat (List.length prog) in
  EstimateSteps SourceProgram OpcodeArgMin code = Some (sub64 count snippetOverhead, None) /\
  (3 <= count -> EstimateSteps SourceProgram OpcodeArgMin code = Some (count - 3, None)) /\
  (count < 3 ->
     EstimateSteps SourceProgram OpcodeArgMin code
       = Some (uint64_modulus - (3 - count), None)).
Proof.
  intros Hsrc Hwf Hlen count.
  assert (H : EstimateSteps SourceProgram OpcodeArgMin code
              = Some (sub64 count snippetOverhead, None)).
  { unfold EstimateSteps. rewrite Hsrc.
    rewrite <- (app_nil_r (encode_program prog)).
    rewrite count_steps_program by (try assumption; lia).
    cbn [count_steps]. reflexivity. }
  split; [exact H|]. rewrite H. unfold sub64, to_uint64, snippetOverhead.
  rewrite uint64_modulus_eq in *. split; intros Hc; do 2 f_equal.
  - apply Z.mod_small. lia.
  - symmetry. apply (Z.mod_unique _ _ (-1)); [left; lia | lia].
Qed.

(** Byte code that ends inside an operand makes the estimators panic. *)
Theorem EstimateSteps_panics_on_cut_operand (code : string) (prog : list instruction)
    (op : Z) (more : list Z) (n : Z) :
  SourceProgram code = Some (encode_program prog ++ op :: more) ->
  Forall (instruction_wf OpcodeArgMin) prog ->
  Z.of_nat (List.length prog) + 1 < uint64_modulus ->
  OpcodeArgMin <= op ->
  Forall (fun b => 128 <= b) more ->
  EstimateSteps SourceProgram OpcodeArgMin code = None /\
  EstimateIterSteps SourceProgram OpcodeArgMin code n = None /\
  MustEstimateSteps SourceProgram OpcodeArgMin code = None /\
  MustEstimateIterSteps SourceProgram OpcodeArgMin code n = None.
Proof.
  intros Hsrc Hwf Hlen Hop Hmore.
  assert (H : EstimateSteps SourceProgram OpcodeArgMin code = None).
  { unfold EstimateSteps. rewrite Hsrc.
    rewrite count_steps_program by (try assumption; lia).
    cbn [count_steps]. destruct (Z.geb_spec op OpcodeArgMin); [|lia].
    rewrite count_steps_cut_operand by assumption. reflexivity. }
  unfold MustEstimateIterSteps, MustEstimateSteps, EstimateIterSteps. rewrite H.
  repeat split.
Qed.

(** The estimate for a loop succeeds exactly when the estimate for one
    run does, whatever the repeat count; when the snippet does not
    compile both return zero steps and the same error, and the variants
    that must succeed panic. *)
Theorem EstimateIterSteps_fails_with_EstimateSteps (code : string) (n : Z) :
  (MustEstimateIterSteps SourceProgram OpcodeArgMin code n = None <->
   MustEstimateSteps SourceProgram OpcodeArgMin code = None) /\
  (SourceProgram code = None ->
     EstimateSteps SourceProgram OpcodeArgMin code = Some (0, Some (err_failed_to_parse code)) /\
     EstimateIterSteps SourceProgram OpcodeArgMin code n
       = Some (0, Some (err_failed_to_parse code)) /\
     MustEstimateSteps SourceProgram OpcodeArgMin code = None /\
     MustEstimateIterSteps SourceProgram OpcodeArgMin code n = None).
Proof.
  split.
  - unfold MustEstimateIterSteps, MustEstimateSteps, EstimateIterSteps.
    destruct (EstimateSteps SourceProgram OpcodeArgMin code) as [[s [e|]]|];
      split; intros H; try reflexivity; try discriminate.
  - intros H. unfold MustEstimateIterSteps, MustEstimateSteps, EstimateIterSteps, EstimateSteps.
    rewrite H. repeat split.
Qed.

End MoreEstimatorFacts.

Lemma EstimateSteps_counts_instructions_witness :
  EstimateSteps toy_SourceProgram toy_OpcodeArgMin "x = 1" = Some (4, None).
Proof.
  assert (Hwf : Forall (instruction_wf toy_OpcodeArgMin) toy_program).
  { assert (Hop : forall (more : list Z) (last : Z),
               Forall (fun b => 128 <= b) more -> last < 128 ->
               operand_wf (more ++ [last]))
      by (intros more last Hm Hl; exists more, last; auto).
    apply Forall_cons; [apply (Hop [] 0); [constructor|reflexivity]|].
    apply Forall_cons; [apply (Hop [] 0); [constructor|reflexivity]|].
    apply Forall_cons; [apply (Hop [] 1); [constructor|reflexivity]|].
    apply Forall_cons;
      [apply (Hop [129] 2); [repeat constructor; discriminate|reflexivity]|].
    repeat (apply Forall_cons; [reflexivity|]). apply Forall_nil. }
  exact (proj1 (proj2 (EstimateSteps_counts_instructions toy_SourceProgram toy_OpcodeArgMin
                         "x = 1" toy_program eq_refl Hwf eq_refl)) ltac:(discriminate)).
Defined.

Lemma EstimateSteps_panics_on_cut_operand_witness :
  EstimateSteps cut_SourceProgram toy_OpcodeArgMin "x" = None /\
  MustEstimateIterSteps cut_SourceProgram toy_OpcodeArgMin "x" 10 = None.
Proof.
  assert (Hwf : Forall (instruction_wf toy_OpcodeArgMin) [mkInstruction 70 [0]]).
  { apply Forall_cons; [|apply Forall_nil].
    exists [], 0. repeat split. constructor. }
  assert (Hmore : Forall (fun b => 128 <= b) [129]) by (repeat constructor; discriminate).
  destruct (EstimateSteps_panics_on_cut_operand cut_SourceProgram toy_OpcodeArgMin "x"
              [mkInstruction 70 [0]] 71 [129] 10 eq_refl Hwf eq_refl
              ltac:(discriminate) Hmore) as (H1 & _ & _ & H4).
  split; [exact H1 | exact H4].
Defined.

Lemma EstimateIterSteps_fails_with_EstimateSteps_witness :
  EstimateIterSteps failing_SourceProgram toy_OpcodeArgMin "x = " 10
    = Some (0, Some (err_failed_to_parse "x = ")) /\
  MustEstimateIterSteps failing_SourceProgram toy_OpcodeArgMin "x = " 10 = None.
Proof.
  destruct (proj2 (EstimateIterSteps_fails_with_EstimateSteps failing_SourceProgram
                     toy_OpcodeArgMin "x = " 10) eq_refl) as (_ & H2 & _ & H4).
  split; [exact H2 | exact H4].
Defined.

(* ===================================================================== *)
(** * Further facts about the harness *)
(* ===================================================================== *)

Section MeasureFacts.

Import startest startest_run.

Lemma nMax_eq : nMax = 100000.
Proof. reflexivity. Qed.

Lemma memoryMax_eq : memoryMax = 209715200.
Proof. reflexivity. Qed.

(** The repeat count of the next round in closed form: the estimate from
    the memory measured so far, held between the two growth bounds and
    under [nMax]. *)
Lemma nextN_eq (last prevIters memorySum : Z) :
  0 <= last < nMax ->
  let n0 := mul64 memoryMax prevIters / (if memorySum <=? 0 then 1 else memorySum) in
  let n1 := add64 n0 (n0 / 5) in
  0 <= n1 /\
  (prevIters = 0 -> n1 = 0) /\
  nextN last prevIters memorySum
    = Z.min nMax (if n1 >? last * 100 then last * 100 else Z.max n1 (last + 1)).
Proof.
  intros Hl n0 n1. rewrite nMax_eq in *.
  assert (Hn1 : 0 <= n1) by apply to_uint64_range.
  split; [exact Hn1|]. split.
  - intros Hp. subst n1 n0. rewrite Hp. unfold mul64. rewrite Z.mul_0_r. reflexivity.
  - unfold nextN. fold n0. fold n1.
    assert (Hmax : mul64 last 100 = last * 100).
    { apply to_uint64_id. unfold is_uint64. rewrite uint64_modulus_eq. lia. }
    assert (Hmin : add64 last 1 = last + 1).
    { apply to_uint64_id. unfold is_uint64. rewrite uint64_modulus_eq. lia. }
    rewrite Hmax, Hmin, nMax_eq.
    destruct (Z.gtb_spec n1 (last * 100)).
    + destruct (Z.gtb_spec (last * 100) 100000); lia.
    + destruct (Z.ltb_spec n1 (last + 1)).
      * destruct (Z.gtb_spec (last + 1) 100000); lia.
      * destruct (Z.gtb_spec n1 100000); lia.
Qed.

Lemma nextN_bounds (last prevIters memorySum : Z) :
  0 <= last < nMax ->
  (last = 0 -> prevIters = 0) ->
  last < nextN last prevIters memorySum <= nMax.
Proof.
  intros Hl H0. destruct (nextN_eq last prevIters memorySum Hl) as (Hn1 & Hz & Heq).
  cbv zeta in *. rewrite Heq. rewrite nMax_eq in *.
  destruct (Z.gtb_spec (add64 (mul64 memoryMax prevIters
                                 / (if memorySum <=? 0 then 1 else memorySum))
                          (mul64 memoryMax prevIters
                             / (if memorySum <=? 0 then 1 else memorySum) / 5))
              (last * 100)) as [Hgt|Hle]; [|lia].
  destruct (Z.eq_dec last 0) as [Hl0|Hl0]; [|lia].
  rewrite (Hz (H0 Hl0)) in Hgt. lia.
Qed.

(** From a repeat count below the bound the next one is larger, within
    the bound and, after the first round, at most a hundred times the
    last, whatever was measured; the first round runs with a count of
    one. *)
Theorem nextN_grows (last prevIters memorySum : Z) :
  0 <= last < nMax ->
  (last = 0 -> prevIters = 0) ->
  last < nextN last prevIters memorySum <= nMax /\
  (1 <= last -> nextN last prevIters memorySum <= 100 * last) /\
  (last = 0 -> nextN last prevIters memorySum = 1).
Proof.
  intros Hl H0. destruct (nextN_eq last prevIters memorySum Hl) as (Hn1 & Hz & Heq).
  cbv zeta in *. rewrite Heq. rewrite nMax_eq in *.
  set (n1 := add64 _ _) in *.
  destruct (Z.eq_dec last 0) as [Hl0|Hl0].
  - rewrite (Hz (H0 Hl0)), Hl0. cbn. repeat split; try lia; discriminate.
  - destruct (Z.gtb_spec n1 (last * 100)); repeat split; lia.
Qed.

Lemma nextN_grows_witness :
  3 < nextN 3 3 5000 <= nMax /\ nextN 0 0 0 = 1.
Proof.
  destruct (nextN_grows 3 3 5000) as (H1 & _ & _); [split; [discriminate|reflexivity]
                                                    |discriminate|].
  destruct (nextN_grows 0 0 0) as (_ & _ & H3); [split; [discriminate|reflexivity]
                                                 |reflexivity|].
  split; [exact H1 | exact (H3 eq_refl)].
Defined.

(** The nanosecond field of a clock reading lies in [[0, 999999999]]: the
    difference of two readings is below [timeMax], so the test on the
    clock holds before every round. *)
Lemma clock_test_holds (now start : Z) :
  0 <= now < timeMax -> 0 <= start < timeMax -> (now - start <? timeMax) = true.
Proof. unfold timeMax. intros Hn Hs. apply Z.ltb_lt. lia. Qed.

Variable p : ptr_width.
Variable rt : runtime.
Variable fn : ST -> Thread -> ST * Thread.
Variable runStepModel : ST -> error + Z.

Lemma Failed_Error_err (e : error) (st : ST) : Failed (Error_err e st) = true.
Proof. unfold Failed, Error_err, Errorf. cbn. destruct (reported st); reflexivity. Qed.

(** A round that returns has reported an error and hands back no sums. *)
Lemma round_Returned (i : nat) (s : loop_state) (r : resources * ST * Thread) :
  round p rt fn runStepModel i s = Returned r ->
  fst (fst r) = no_resources /\ Failed (snd (fst r)) = true.
Proof.
  unfold startest_run.round.
  destruct (Contains _ CPUSafe && negb (String.eqb _ EmptyString)).
  - destruct (runStepModel _) as [e|modelSteps].
    + intros H. inversion H. cbn. split; [reflexivity|apply Failed_Error_err].
    + destruct (fn _ _); discriminate.
  - destruct (fn _ _); discriminate.
Qed.

(** The repeat count and the sum of the counts after a round that goes
    on. *)
Lemma round_Continue (i : nat) (s s' : loop_state) :
  round p rt fn runStepModel i s = Continue s' ->
  ls_n s' = nextN (ls_n s) (to_uint64 (N (ls_st s))) (ls_memorySum s) /\
  ls_nSum s' = add64 (ls_nSum s) (ls_n s').
Proof.
  unfold startest_run.round.
  destruct (Contains _ CPUSafe && negb (String.eqb _ EmptyString)).
  - destruct (runStepModel _) as [e|modelSteps]; [discriminate|].
    destruct (fn _ _). intros H. inversion H. cbn. split; reflexivity.
  - destruct (fn _ _). intros H. inversion H. cbn. split; reflexivity.
Qed.

Lemma loop_test_n (i : nat) (s : loop_state) : loop_test rt i s = true -> ls_n s < nMax.
Proof.
  unfold startest_run.loop_test. intros H.
  apply andb_true_iff in H. destruct H as [H _].
  apply andb_true_iff in H. destruct H as [_ H]. apply Z.ltb_lt. exact H.
Qed.

(** A round keeps the invariant of the loop and raises the repeat count. *)
Lemma round_inv (i : nat) (s s' : loop_state) :
  loop_inv s -> loop_test rt i s = true -> round p rt fn runStepModel i s = Continue s' ->
  loop_inv s' /\ ls_n s < ls_n s' /\ 1 <= ls_n s'.
Proof.
  intros (Hn & H0 & H1) Ht Hr. apply loop_test_n in Ht.
  apply round_Continue in Hr. destruct Hr as [Hn' Hs'].
  pose proof (nextN_bounds (ls_n s) (to_uint64 (N (ls_st s))) (ls_memorySum s)) as Hg.
  specialize (Hg ltac:(lia) (fun Hz => proj1 (H0 Hz))).
  rewrite <- Hn' in Hg. rewrite nMax_eq in *.
  assert (Hsum : ls_nSum s' = ls_nSum s + ls_n s' /\ 0 <= ls_nSum s <= ls_n s * ls_n s).
  { rewrite Hs'. destruct (Z.eq_dec (ls_n s) 0) as [Hz|Hz].
    - destruct (H0 Hz) as [_ Hsum0]. rewrite Hsum0, Hz. split; [|lia].
      apply to_uint64_id. unfold is_uint64. rewrite uint64_modulus_eq. lia.
    - assert (Hb : ls_n s <= ls_nSum s <= ls_n s * ls_n s) by (apply H1; lia).
      split; [|lia]. apply to_uint64_id. unfold is_uint64. rewrite uint64_modulus_eq. nia. }
  destruct Hsum as [Hsum Hb].
  split; [|lia]. unfold loop_inv. rewrite nMax_eq. split; [lia|]. split; [lia|].
  intros _. rewrite Hsum. nia.
Qed.

(** The loop never runs out of fuel that exceeds the distance of the
    repeat count from its bound; it ends with the invariant kept, or
    returns with an error reported. *)
Lemma loop_terminates (fuel : nat) :
  forall (i : nat) (s : loop_state),
    loop_inv s ->
    nMax - ls_n s < Z.of_nat fuel ->
    exists e : loop_exit,
      loop p rt fn runStepModel fuel i s = Some e /\
      match e with
      | Returned r => fst (fst r) = no_resources /\ Failed (snd (fst r)) = true
      | Continue s' =>
          loop_inv s' /\ ls_n s <= ls_n s' /\
          (loop_test rt i s = true -> 1 <= ls_n s') /\
          (loop_test rt i s = false -> s' = s)
      end.
Proof.
  induction fuel as [|fuel IH]; intros i s Hinv Hfuel.
  - destruct Hinv as (Hn & _). change (Z.of_nat 0) with 0 in Hfuel. lia.
  - cbn [startest_run.loop]. destruct (loop_test rt i s) eqn:Ht.
    + destruct (round p rt fn runStepModel i s) as [r|s1] eqn:Hr.
      * exists (Returned r). split; [reflexivity|]. eapply round_Returned; eassumption.
      * destruct (round_inv i s s1 Hinv Ht Hr) as (Hinv1 & Hlt & H1).
        destruct (IH (S i) s1 Hinv1) as (e & He & Hprop); [lia|].
        exists e. split; [exact He|].
        destruct e as [r|s2]; [exact Hprop|].
        destruct Hprop as (Hinv2 & Hle & _). split; [exact Hinv2|].
        split; [lia|]. split; [lia|discriminate].
    + exists (Continue s). split; [reflexivity|]. split; [exact Hinv|].
      split; [lia|]. split; [discriminate|reflexivity].
Qed.

(** More fuel does not change what the loop returns. *)
Lemma loop_fuel_mono (fuel : nat) :
  forall (i : nat) (s : loop_state) (e : loop_exit) (more : nat),
    loop p rt fn runStepModel fuel i s = Some e -> loop p rt fn runStepModel (fuel + more) i s = Some e.
Proof.
  induction fuel as [|fuel IH]; intros i s e more.
  - cbn [startest_run.loop Nat.add]. destruct (loop_test rt i s) eqn:Ht; [discriminate|].
    intros H. destruct more; cbn [startest_run.loop]; rewrite Ht; exact H.
  - cbn [startest_run.loop Nat.add]. destruct (loop_test rt i s); [|auto].
    destruct (round p rt fn runStepModel i s); [auto|]. apply IH.
Qed.

Lemma init_inv (st : ST) (thread : Thread) :
  loop_inv (mkLoopState (set_N 0 st) thread 0 0 0 0 0).
Proof.
  unfold loop_inv. cbn. rewrite nMax_eq. split; [lia|]. split; [|lia].
  intros _. split; reflexivity.
Qed.

(** The measurement loop ends: with the fuel that [measureResources] is
    given, and with any larger amount, the run returns, and returns the
    same. *)
Theorem measureResources_terminates (st : ST) (thread : Thread) (more : nat) :
  measureResources_fuel p rt fn runStepModel (enough_fuel + more) st thread
    = Some (measureResources p rt fn runStepModel st thread).
Proof.
  unfold measureResources, measureResources_fuel.
  destruct (loop_terminates enough_fuel O _ (init_inv st thread)) as (e & He & _).
  { cbn [ls_n]. unfold enough_fuel. rewrite Nat2Z.inj_succ, Z2Nat.id by discriminate. lia. }
  rewrite (loop_fuel_mono _ _ _ _ more He), He.
  destruct e as [r|s]; [reflexivity|]. destruct (Failed (ls_st s)); reflexivity.
Qed.

(** When the loop returns from inside a round, it hands back no sums. *)
Lemma loop_returns_no_resources (fuel : nat) :
  forall (i : nat) (s : loop_state) (r : resources * ST * Thread),
    loop p rt fn runStepModel fuel i s = Some (Returned r) -> fst (fst r) = no_resources.
Proof.
  induction fuel as [|fuel IH]; intros i s r; cbn [startest_run.loop].
  - destruct (loop_test rt i s); discriminate.
  - destruct (loop_test rt i s); [|discriminate].
    destruct (round p rt fn runStepModel i s) as [r1|s1] eqn:Hr.
    + intros H. inversion H. subst. apply (round_Returned i s r Hr).
    + apply IH.
Qed.

(** What holds before the loop and is kept by every round that goes on
    holds when the loop ends. *)
Lemma loop_preserves (P : loop_state -> Prop) :
  (forall (i : nat) (s s' : loop_state),
      P s -> loop_test rt i s = true -> round p rt fn runStepModel i s = Continue s' -> P s') ->
  forall (fuel i : nat) (s s' : loop_state),
    P s -> loop p rt fn runStepModel fuel i s = Some (Continue s') -> P s'.
Proof.
  intros Hstep. induction fuel as [|fuel IH]; intros i s s' HP; cbn [startest_run.loop].
  - destruct (loop_test rt i s); [discriminate|]. intros H. inversion H. subst. exact HP.
  - destruct (loop_test rt i s) eqn:Ht.
    + destruct (round p rt fn runStepModel i s) as [r|s1] eqn:Hr; [discriminate|].
      apply IH. eapply Hstep; eassumption.
    + intros H. inversion H. subst. exact HP.
Qed.

Hypothesis clock_range : forall i : nat, 0 <= clock rt i < timeMax.
Hypothesis startNano_range : 0 <= startNano rt < timeMax.

(** The loop as [measureResources] starts it: it returns with an error
    reported, or it ends, and then either the harness has failed or at
    least one round was made. *)
Lemma loop_from_start (st : ST) (thread : Thread) :
  exists e : loop_exit,
    loop p rt fn runStepModel enough_fuel O (mkLoopState (set_N 0 st) thread 0 0 0 0 0)
      = Some e /\
    match e with
    | Returned r => fst (fst r) = no_resources /\ Failed (snd (fst r)) = true
    | Continue s => Failed (ls_st s) = false -> 1 <= ls_nSum s <= nMax * nMax
    end.
Proof.
  destruct (loop_terminates enough_fuel O _ (init_inv st thread)) as (e & He & Hprop).
  { cbn [ls_n]. unfold enough_fuel. rewrite Nat2Z.inj_succ, Z2Nat.id by discriminate. lia. }
  exists e. split; [exact He|]. destruct e as [r|s]; [exact Hprop|].
  destruct Hprop as (Hinv & _ & H1 & Hsame). intros Hf.
  assert (Ht : loop_test rt O (mkLoopState (set_N 0 st) thread 0 0 0 0 0) = true).
  { destruct (loop_test rt O (mkLoopState (set_N 0 st) thread 0 0 0 0 0)) eqn:Ht;
      [reflexivity|].
    pose proof (Hsame eq_refl) as Hs. subst s. cbn [ls_st] in Hf.
    unfold startest_run.loop_test in Ht.
    cbn [ls_st ls_memorySum ls_valueTrackerOverhead ls_n] in Ht.
    rewrite Hf, (clock_test_holds _ _ (clock_range O) startNano_range) in Ht.
    discriminate Ht. }
  specialize (H1 Ht). destruct Hinv as (Hn & _ & Hsum). specialize (Hsum H1).
  rewrite nMax_eq in *. nia.
Qed.

(** A run of [measureResources] either ends with an error reported and
    no sums, or with at least one round made: the sum of the repeat
    counts is then at least one, and small enough never to have
    wrapped. *)
Theorem measureResources_sums (st : ST) (thread : Thread) :
  let '(res, st', _) := measureResources p rt fn runStepModel st thread in
  (Failed st' = true /\ res = no_resources) \/
  (Failed st' = false /\ 1 <= nSum res <= nMax * nMax).
Proof.
  unfold measureResources, measureResources_fuel.
  destruct (loop_from_start st thread) as (e & He & Hprop). rewrite He.
  destruct e as [[[res st'] thread']|s].
  - left. cbn in Hprop. destruct Hprop as [Hr Hf]. split; [exact Hf | exact Hr].
  - destruct (Failed (ls_st s)) eqn:Hf.
    + left. split; [exact Hf|reflexivity].
    + right. split; [exact Hf|]. cbn [nSum]. apply Hprop. reflexivity.
Qed.

(** With [measureResources] as the measurement, [RunThread] never divides
    by zero: it returns for every harness, tested function, step model
    and run time. *)
Theorem RunThread_never_panics (st : ST) :
  exists st' : ST, RunThread (measureResources p rt fn runStepModel) st = Some st'.
Proof.
  unfold RunThread, measureResources, measureResources_fuel.
  set (st1 := if negb (safetyGiven st) then set_requiredSafety stSafe st else st).
  destruct (loop_from_start st1 (Thread_RequireSafety (requiredSafety st1) zeroThread))
    as (e & He & Hprop).
  rewrite He. destruct e as [[[res st2] thread2]|s].
  - cbn in Hprop. destruct Hprop as [_ Hf]. rewrite Hf. eexists. reflexivity.
  - destruct (Failed (ls_st s)) eqn:Hf.
    + rewrite Hf. eexists. reflexivity.
    + rewrite Hf. cbn [nSum]. specialize (Hprop eq_refl).
      destruct (Z.eqb_spec (ls_nSum s) 0) as [Hz|Hz]; [lia|]. eexists. reflexivity.
Qed.

(** Rounds in which the heap does not grow add nothing to the measured
    memory: when the allocated heap after the tested function is never
    above the one before it, the memory sum that is returned is zero. *)
Theorem shrinking_heap_measures_nothing (st : ST) (thread : Thread) :
  (forall i : nat, 0 <= heapAfter rt i <= heapBefore rt i /\ heapBefore rt i < 2 ^ 63) ->
  memorySum (fst (fst (measureResources p rt fn runStepModel st thread))) = 0.
Proof.
  intros Hheap.
  assert (Hmeasure : forall i : nat,
             (to_int64 (sub64 (heapAfter rt i) (heapBefore rt i)) >? 0) = false).
  { intros i. destruct (Hheap i) as [Ha Hb].
    unfold to_int64, sub64. rewrite to_uint64_id by apply to_uint64_range.
    unfold to_uint64. rewrite uint64_modulus_eq.
    change (2 ^ 63) with 9223372036854775808 in *.
    destruct (Z.eq_dec (heapAfter rt i) (heapBefore rt i)) as [Heq|Hne].
    - rewrite Heq, Z.sub_diag. reflexivity.
    - assert (Hm : (heapAfter rt i - heapBefore rt i) mod 18446744073709551616
                   = heapAfter rt i - heapBefore rt i + 18446744073709551616).
      { symmetry. apply (Z.mod_unique _ _ (-1)); [left; lia | lia]. }
      rewrite Hm.
      destruct (Z.ltb_spec (heapAfter rt i - heapBefore rt i + 18446744073709551616)
                  9223372036854775808); [lia|].
      rewrite Z.gtb_ltb. apply Z.ltb_ge. lia. }
  unfold measureResources, measureResources_fuel.
  destruct (loop p rt fn runStepModel enough_fuel O
              (mkLoopState (set_N 0 st) thread 0 0 0 0 0)) as [[[[res st'] thread']|s]|] eqn:He.
  - apply loop_returns_no_resources in He. cbn in *. rewrite He. reflexivity.
  - assert (HP : ls_memorySum s = 0 /\ 0 <= ls_valueTrackerOverhead s).
    { apply (loop_preserves (fun s => ls_memorySum s = 0 /\ 0 <= ls_valueTrackerOverhead s))
        with (fuel := enough_fuel) (i := O) (s := mkLoopState (set_N 0 st) thread 0 0 0 0 0);
        [|cbn; lia|exact He].
      intros i s0 s1 [Hm Ho] _ Hr. unfold startest_run.round in Hr.
      rewrite Hmeasure in Hr.
      destruct (Contains _ CPUSafe && negb (String.eqb _ EmptyString)).
      - destruct (runStepModel _); [discriminate|].
        destruct (fn _ _). inversion Hr. cbn. split; [exact Hm|apply to_uint64_range].
      - destruct (fn _ _). inversion Hr. cbn. split; [exact Hm|apply to_uint64_range]. }
    destruct HP as [Hm Ho].
    destruct (Failed (ls_st s)); [reflexivity|]. cbn [fst memorySum]. rewrite Hm.
    destruct (Z.gtb_spec (ls_valueTrackerOverhead s) 0); [reflexivity|].
    replace (ls_valueTrackerOverhead s) with 0 by lia. reflexivity.
  - reflexivity.
Qed.

(** Without a step model the model is never run: when the harness has
    none and the tested function sets none, the run is the same whatever
    running a model would give, and the sum of the model steps is zero. *)
Theorem no_step_model_is_not_run (runStepModel' : ST -> error + Z) (st : ST)
    (thread : Thread) :
  executionStepModel st = EmptyString ->
  (forall (st0 : ST) (thread0 : Thread),
      executionStepModel (fst (fn st0 thread0)) = executionStepModel st0) ->
  measureResources p rt fn runStepModel st thread
    = measureResources p rt fn runStepModel' st thread /\
  modelStepSum (fst (fst (measureResources p rt fn runStepModel st thread))) = 0.
Proof.
  intros Hnone Hfn.
  assert (Hround : forall (rsm : ST -> error + Z) (i : nat) (s : loop_state),
             executionStepModel (ls_st s) = EmptyString ->
             exists s' : loop_state,
               round p rt fn rsm i s = Continue s' /\
               s' = (let n := nextN (ls_n s) (to_uint64 (N (ls_st s))) (ls_memorySum s) in
                     let r := fn (set_N n (ls_st s)) (ls_thread s) in
                     mkLoopState (fst r) (snd r) n
                       (if to_int64 (sub64 (heapAfter rt i) (heapBefore rt i)) >? 0
                        then add64 (ls_memorySum s)
                               (to_uint64 (to_int64 (sub64 (heapAfter rt i) (heapBefore rt i))))
                        else ls_memorySum s)
                       (ls_modelStepSum s)
                       (add64 (ls_nSum s) n)
                       (add64 (ls_valueTrackerOverhead s)
                          (mul64 (to_uint64 (aliveCap rt i)) (sizeof_interface p))))).
  { intros rsm i s Hs. unfold startest_run.round.
    cbn [executionStepModel set_N]. rewrite Hs. cbn [String.eqb negb].
    rewrite andb_false_r. destruct (fn _ _). eexists. split; reflexivity. }
  assert (Hloop : forall (fuel i : nat) (s : loop_state),
             executionStepModel (ls_st s) = EmptyString ->
             loop p rt fn runStepModel fuel i s = loop p rt fn runStepModel' fuel i s).
  { induction fuel as [|fuel IH]; intros i s Hs; cbn [startest_run.loop]; [reflexivity|].
    destruct (loop_test rt i s); [|reflexivity].
    destruct (Hround runStepModel i s Hs) as (s1 & Hr1 & Heq1).
    destruct (Hround runStepModel' i s Hs) as (s2 & Hr2 & Heq2).
    rewrite Hr1, Hr2. subst s1 s2. apply IH. cbn [ls_st]. rewrite Hfn. cbn. exact Hs. }
  split.
  - unfold measureResources, measureResources_fuel. rewrite Hloop by (cbn; exact Hnone).
    reflexivity.
  - unfold measureResources, measureResources_fuel.
    destruct (loop p rt fn runStepModel enough_fuel O
                (mkLoopState (set_N 0 st) thread 0 0 0 0 0))
      as [[[[res st'] thread']|s]|] eqn:He.
    + apply loop_returns_no_resources in He. cbn in *. rewrite He. reflexivity.
    + assert (HP : executionStepModel (ls_st s) = EmptyString /\ ls_modelStepSum s = 0).
      { apply (loop_preserves
                 (fun s => executionStepModel (ls_st s) = EmptyString /\ ls_modelStepSum s = 0))
          with (fuel := enough_fuel) (i := O) (s := mkLoopState (set_N 0 st) thread 0 0 0 0 0);
          [|cbn; auto|exact He].
        intros i s0 s1 [Hs Hm] _ Hr.
        destruct (Hround runStepModel i s0 Hs) as (s2 & Hr2 & Heq2).
        rewrite Hr in Hr2. inversion Hr2. subst s2 s1. cbn [ls_st ls_modelStepSum].
        rewrite Hfn. cbn. auto. }
      destruct (Failed (ls_st s)); [reflexivity|]. cbn. apply HP.
    + reflexivity.
Qed.

End MeasureFacts.

Section HarnessValueFacts.

Import startest startest_run.

(** When the overhead of the value tracker is above the measured memory,
    their unsigned difference wraps to a value above [memoryMax]: the
    test of the loop fails and the loop ends at once, although the memory
    measured is below the ceiling. *)
Theorem overhead_above_memory_ends_loop (p : ptr_width) (rt : runtime)
    (fn : ST -> Thread -> ST * Thread) (runStepModel : ST -> error + Z)
    (fuel i : nat) (s : loop_state) :
  0 <= ls_memorySum s < ls_valueTrackerOverhead s ->
  ls_valueTrackerOverhead s - ls_memorySum s <= uint64_modulus - memoryMax ->
  loop_test rt i s = false /\
  loop p rt fn runStepModel fuel i s = Some (Continue s).
Proof.
  intros Hm Ho.
  assert (Ht : loop_test rt i s = false).
  { unfold loop_test, sub64, to_uint64. rewrite uint64_modulus_eq, memoryMax_eq in *.
    assert (Hw : (ls_memorySum s - ls_valueTrackerOverhead s) mod 18446744073709551616
                 = ls_memorySum s - ls_valueTrackerOverhead s + 18446744073709551616).
    { symmetry. apply (Z.mod_unique _ _ (-1)); [left; lia | lia]. }
    rewrite Hw.
    destruct (Z.ltb_spec (ls_memorySum s - ls_valueTrackerOverhead s + 18446744073709551616)
                209715200); [lia|].
    rewrite andb_false_r. reflexivity. }
  split; [exact Ht|]. destruct fuel; cbn [loop]; rewrite Ht; reflexivity.
Qed.

(** Successive calls of [Next] on the iterator of [st.ntimes()] produce a
    value exactly [n] times when [n] is positive, and never when it is
    not; after that every call returns false and leaves the iterator as
    it is. *)
Theorem ntimes_yields_n_values (k : nat) (n : Z) :
  ntimes_Next_calls k n
    = (repeat true (Nat.min k (Z.to_nat n)) ++ repeat false (k - Z.to_nat n),
       n - Z.of_nat (Nat.min k (Z.to_nat n))).
Proof.
  revert n. induction k as [|k IH]; intros n.
  - cbn. f_equal. lia.
  - cbn [ntimes_Next_calls]. unfold ntimes_Next.
    destruct (Z.gtb_spec n 0) as [Hpos|Hneg].
    + rewrite IH. replace (Z.to_nat n) with (S (Z.to_nat (n - 1))) by lia.
      cbn [Nat.min Nat.sub repeat app]. f_equal. lia.
    + rewrite IH. replace (Z.to_nat n) with O by lia.
      rewrite Nat.min_0_r, Nat.sub_0_r. cbn [Nat.min Nat.sub repeat app Z.of_nat].
      rewrite Z.sub_0_r. reflexivity.
Qed.

(** Every name that [AttrNames] lists is an attribute that [Attr] finds,
    but [Attr] also finds [ntimes] and [do], which [AttrNames] does not
    list; for every other name [Attr] returns nothing and no error. *)
Theorem Attr_and_AttrNames (name : string) (st : ST) :
  (Attr name st <> None <-> In name (AttrNames ++ ["ntimes"; "do"]%string)) /\
  (In name AttrNames -> Attr name st <> None) /\
  ~ In "ntimes"%string AttrNames /\
  ~ In "do"%string AttrNames /\
  (Attr name st = Some (IntAttr (N st)) <-> name = "n"%string).
Proof.
  assert (Hiff : Attr name st <> None <-> In name (AttrNames ++ ["ntimes"; "do"]%string)).
  { unfold Attr, AttrNames. cbn [app In].
    destruct (String.eqb_spec name "error"); [split; [auto|discriminate]|].
    destruct (String.eqb_spec name "fatal"); [split; [auto|discriminate]|].
    destruct (String.eqb_spec name "keep_alive"); [split; [auto|discriminate]|].
    destruct (String.eqb_spec name "ntimes"); [split; [auto 7|discriminate]|].
    destruct (String.eqb_spec name "do"); [split; [auto 7|discriminate]|].
    destruct (String.eqb_spec name "n"); [split; [auto 7|discriminate]|].
    split; [congruence|]. intros H.
    repeat (destruct H as [H|H]; [symmetry in H; contradiction|]). contradiction. }
  split; [exact Hiff|]. split; [|split; [|split]].
  - intros H. apply Hiff. apply in_or_app. left. exact H.
  - cbn. intros H. repeat (destruct H as [H|H]; [discriminate|]). contradiction.
  - cbn. intros H. repeat (destruct H as [H|H]; [discriminate|]). contradiction.
  - unfold Attr.
    destruct (String.eqb_spec name "error"); [subst; split; discriminate|].
    destruct (String.eqb_spec name "fatal"); [subst; split; discriminate|].
    destruct (String.eqb_spec name "keep_alive"); [subst; split; discriminate|].
    destruct (String.eqb_spec name "ntimes"); [subst; split; discriminate|].
    destruct (String.eqb_spec name "do"); [subst; split; discriminate|].
    destruct (String.eqb_spec name "n"); [split; auto|].
    split; [discriminate|contradiction].
Qed.

(** [RequireSafety] only adds flags: what was required stays required,
    what is asked for becomes required, the order of two calls does not
    matter and a call with flags already required changes nothing; every
    call, also one with no flag, marks the safety as given, which keeps
    [RunThread] from requiring all flags. *)
Theorem RequireSafety_accumulates (a b : Safety) (st : ST) :
  Contains (requiredSafety (RequireSafety a st)) (requiredSafety st) = true /\
  Contains (requiredSafety (RequireSafety a st)) a = true /\
  RequireSafety b (RequireSafety a st) = RequireSafety a (RequireSafety b st) /\
  (Contains (requiredSafety st) a = true ->
     requiredSafety (RequireSafety a st) = requiredSafety st) /\
  safetyGiven (RequireSafety a st) = true /\
  requiredSafety (RequireSafety 0 (From [])) = 0.
Proof.
  unfold RequireSafety, Contains, union. cbn [requiredSafety safetyGiven].
  rewrite land_lor_absorb_l, land_lor_absorb_r, !Z.eqb_refl.
  split; [reflexivity|]. split; [reflexivity|]. split; [|split; [|split; reflexivity]].
  - f_equal. rewrite <- !Z.lor_assoc. f_equal. apply Z.lor_comm.
  - intros H. apply Z.eqb_eq in H. rewrite <- H at 1.
    rewrite Z.lor_comm, Z.land_comm. apply Z.bits_inj'. intros n _.
    rewrite Z.lor_spec, Z.land_spec.
    destruct (Z.testbit a n), (Z.testbit (requiredSafety st) n); reflexivity.
Qed.

End HarnessValueFacts.

(** ** Runs of the added facts *)

Lemma quiet_clock : forall i : nat, 0 <= startest_run.clock quiet_runtime i < startest_run.timeMax.
Proof. intros i. split; [discriminate|reflexivity]. Qed.

Lemma quiet_start : 0 <= startest_run.startNano quiet_runtime < startest_run.timeMax.
Proof. split; [discriminate|reflexivity]. Qed.

Lemma initMonitor_fills_zero_caps_witness :
  locationsCap (initMonitor W64 DefaultLocationsCap_default zeroMonitor) = 32767 /\
  maxSteps (initMonitor W64 DefaultLocationsCap_default zeroMonitor) = MaxUint64 /\
  locationsCap (initMonitor W32 0 zeroMonitor) = MaxUintptr W32.
Proof.
  destruct (initMonitor_fills_zero_caps W64 DefaultLocationsCap_default zeroMonitor)
    as (_ & _ & _ & H1 & _ & H2 & _).
  destruct (initMonitor_fills_zero_caps W32 0 zeroMonitor) as (_ & _ & _ & H3 & _).
  split; [exact (H1 eq_refl)|]. split; [exact (H2 eq_refl) | exact (H3 eq_refl)].
Defined.


Lemma measureResources_sums_witness :
  startest.nSum (fst (fst (startest_run.measureResources W64 quiet_runtime declaring_fn
                             no_step_model sample_ST zeroThread))) = 110101 /\
  1 <= 110101 <= startest_run.nMax * startest_run.nMax.
Proof.
  pose proof (measureResources_sums W64 quiet_runtime declaring_fn no_step_model
                quiet_clock quiet_start sample_ST zeroThread) as H.
  vm_compute in H.
  split; [vm_compute; reflexivity|].
  destruct H as [[H _]|[_ H]]; [discriminate H | exact H].
Defined.

Lemma RunThread_never_panics_witness :
  exists st' : startest.ST,
    startest.RunThread
      (startest_run.measureResources W64 quiet_runtime declaring_fn no_step_model) sample_ST
      = Some st'.
Proof.
  exact (RunThread_never_panics W64 quiet_runtime declaring_fn no_step_model
           quiet_clock quiet_start sample_ST).
Defined.

Lemma shrinking_heap_measures_nothing_witness :
  startest.memorySum (fst (fst (startest_run.measureResources W64 shrinking_runtime idle_fn
                                  no_step_model sample_ST zeroThread))) = 0.
Proof.
  apply (shrinking_heap_measures_nothing W64 shrinking_runtime idle_fn no_step_model
           sample_ST zeroThread).
  intros i. split; [split; discriminate | reflexivity].
Defined.

Lemma no_step_model_is_not_run_witness :
  startest_run.measureResources W64 quiet_runtime declaring_fn no_step_model sample_ST zeroThread
    = startest_run.measureResources W64 quiet_runtime declaring_fn
        (fun _ => inl err_too_many_steps) sample_ST zeroThread.
Proof.
  apply (no_step_model_is_not_run W64 quiet_runtime declaring_fn no_step_model
           (fun _ => inl err_too_many_steps) sample_ST zeroThread eq_refl).
  intros st0 thread0. reflexivity.
Defined.

Lemma overhead_above_memory_ends_loop_witness :
  startest_run.loop W64 shrinking_runtime idle_fn no_step_model 5 1 overhead_state
    = Some (startest_run.Continue overhead_state).
Proof.
  apply (overhead_above_memory_ends_loop W64 shrinking_runtime idle_fn no_step_model 5 1
           overhead_state).
  - split; [discriminate|reflexivity].
  - discriminate.
Defined.

Lemma Attr_and_AttrNames_witness :
  startest_run.Attr "n" (startest_run.set_N 3 sample_ST) <> None /\
  startest_run.Attr "ntimes" sample_ST <> None.
Proof.
  split.
  - apply (proj1 (proj2 (Attr_and_AttrNames "n" (startest_run.set_N 3 sample_ST)))).
    cbn. auto.
  - apply (proj1 (Attr_and_AttrNames "ntimes" sample_ST)). cbn. auto 7.
Defined.

Lemma RequireSafety_accumulates_witness :
  startest.requiredSafety
    (startest.RequireSafety MemSafe (startest.RequireSafety MemSafe (startest.From [])))
    = startest.requiredSafety (startest.RequireSafety MemSafe (startest.From [])).
Proof.
  apply (proj1 (proj2 (proj2 (proj2 (RequireSafety_accumulates MemSafe CPUSafe
                                        (startest.RequireSafety MemSafe (startest.From []))))))).
  reflexivity.
Defined.

(* ===================================================================== *)
(** * The consistency tests of the safety declarations *)
(* ===================================================================== *)

Lemma flat_map_nil {A B : Type} (f : A -> list B) (l : list A) :
  flat_map f l = [] <-> forall x : A, In x l -> f x = [].
Proof.
  induction l as [|a l IH]; cbn [flat_map In].
  - split; [intros _ x []|reflexivity].
  - split.
    + intros H. apply app_eq_nil in H. destruct H as [Ha Hl].
      intros x [Hx|Hx]; [subst; exact Ha|]. apply IH; assumption.
    + intros H. rewrite (H a (or_introl eq_refl)). cbn. apply IH. intros x Hx.
      apply H. right. exact Hx.
Qed.

Lemma map_lookup_In {V : Type} (m : go_map V) (name : string) (v : V) :
  map_lookup m name = Some v -> In (name, v) m.
Proof.
  induction m as [|[k w] m IH]; cbn [map_lookup In]; [discriminate|].
  destruct (String.eqb_spec k name) as [Heq|Hne].
  - intros H. inversion H. subst. left. reflexivity.
  - intros H. right. apply IH. exact H.
Qed.

Lemma In_map_lookup {V : Type} (m : go_map V) (name : string) (v : V) :
  map_wf m -> In (name, v) m -> map_lookup m name = Some v.
Proof.
  unfold map_wf. induction m as [|[k w] m IH]; cbn [map_lookup In map fst]; [intros _ []|].
  intros Hnd [Heq|Hin].
  - inversion Heq. subst. rewrite String.eqb_refl. reflexivity.
  - inversion Hnd as [|? ? Hnotin Hnd']. subst.
    destruct (String.eqb_spec k name) as [Heq|Hne].
    + subst. exfalso. apply Hnotin. apply (in_map fst) in Hin. exact Hin.
    + apply IH; assumption.
Qed.

(** [TestModuleSafeties] reports no error exactly when every member that
    is a built-in has a declaration equal to the safety it carries, and
    every declaration names a member of the module, of whatever kind. *)
Theorem TestModuleSafeties_passes_iff (Members : go_map member) (Safeties : go_map Safety) :
  map_wf Members ->
  map_wf Safeties ->
  (TestModuleSafeties Members Safeties = [] <->
   (forall (name : string) (safety : Safety),
       map_lookup Members name = Some (MemberBuiltin safety) ->
       map_lookup Safeties name = Some safety) /\
   (forall name : string,
       map_lookup Safeties name <> None -> map_lookup Members name <> None)).
Proof.
  intros HM HS. unfold TestModuleSafeties. split.
  - intros H. apply app_eq_nil in H. destruct H as [H1 H2].
    rewrite flat_map_nil in H1. rewrite flat_map_nil in H2. split.
    + intros name safety Hl. apply map_lookup_In in Hl. specialize (H1 _ Hl).
      cbn in H1. destruct (map_lookup Safeties name) as [s|]; [|discriminate].
      destruct (Z.eqb_spec safety s); [congruence|discriminate].
    + intros name Hs. destruct (map_lookup Safeties name) as [s|] eqn:Hl; [|contradiction].
      apply map_lookup_In in Hl. specialize (H2 _ Hl). cbn in H2.
      destruct (map_lookup Members name); [discriminate|discriminate H2].
  - intros [H1 H2].
    assert (E1 : forall x, In x Members ->
                 (let '(name, value) := x in
                  match value with
                  | MemberOther => []
                  | MemberBuiltin actualSafety =>
                      match map_lookup Safeties name with
                      | None => [NoSafetyDeclaration name]
                      | Some safety =>
                          if negb (actualSafety =? safety)
                          then [IncorrectSafety name safety actualSafety]
                          else []
                      end
                  end) = []).
    { intros [name [safety|]] Hin; [|reflexivity].
      rewrite (H1 name safety (In_map_lookup _ _ _ HM Hin)), Z.eqb_refl. reflexivity. }
    assert (E2 : forall x, In x Safeties ->
                 (let '(name, _) := x in
                  match map_lookup Members name with
                  | None => [NoMethodForDeclaration name]
                  | Some _ => []
                  end) = []).
    { intros [name s] Hin.
      assert (Hs : map_lookup Safeties name <> None)
        by (rewrite (In_map_lookup _ _ _ HS Hin); discriminate).
      specialize (H2 name Hs). destruct (map_lookup Members name); [reflexivity|contradiction]. }
    apply flat_map_nil in E1. apply flat_map_nil in E2. rewrite E1, E2. reflexivity.
Qed.

Lemma TestModuleSafeties_passes_iff_witness :
  TestModuleSafeties sample_Members sample_Safeties = [] /\
  map_lookup sample_Members "nanosecond" = Some MemberOther /\
  map_lookup sample_Safeties "nanosecond" = Some Safe.
Proof.
  assert (HM : map_wf sample_Members).
  { repeat constructor; cbn; intuition discriminate. }
  assert (HS : map_wf sample_Safeties).
  { repeat constructor; cbn; intuition discriminate. }
  split; [|split; reflexivity].
  apply (proj2 (TestModuleSafeties_passes_iff sample_Members sample_Safeties HM HS)).
  split.
  - intros name safety. unfold sample_Members, sample_Safeties. cbn [map_lookup].
    destruct (String.eqb "now" name); [intros H; inversion H; reflexivity|].
    destruct (String.eqb "nanosecond" name); discriminate.
  - intros name. unfold sample_Members, sample_Safeties. cbn [map_lookup].
    destruct (String.eqb "now" name); [discriminate|].
    destruct (String.eqb "nanosecond" name); [discriminate|auto].
Defined.

(** [TestMethodSafetiesExist] reports no error exactly when the methods
    and the declarations have the same names; it compares no safety. *)
Theorem TestMethodSafetiesExist_passes_iff (A B : Type) (TimeMethods : go_map A)
    (TimeMethodSafeties : go_map B) :
  map_wf TimeMethods ->
  map_wf TimeMethodSafeties ->
  (TestMethodSafetiesExist TimeMethods TimeMethodSafeties = [] <->
   forall name : string,
     map_lookup TimeMethods name <> None <-> map_lookup TimeMethodSafeties name <> None).
Proof.
  intros HM HS. unfold TestMethodSafetiesExist. split.
  - intros H. apply app_eq_nil in H. destruct H as [H1 H2].
    rewrite flat_map_nil in H1. rewrite flat_map_nil in H2. intros name. split; intros Hn.
    + destruct (map_lookup TimeMethods name) as [a|] eqn:Hl; [|contradiction].
      apply map_lookup_In in Hl. specialize (H1 _ Hl). cbn in H1.
      destruct (map_lookup TimeMethodSafeties name); [discriminate|discriminate H1].
    + destruct (map_lookup TimeMethodSafeties name) as [b|] eqn:Hl; [|contradiction].
      apply map_lookup_In in Hl. specialize (H2 _ Hl). cbn in H2.
      destruct (map_lookup TimeMethods name); [discriminate|discriminate H2].
  - intros H.
    assert (E1 : forall x, In x TimeMethods ->
                 (let '(name, _) := x in
                  match map_lookup TimeMethodSafeties name with
                  | None => [NoSafetyDeclaration name]
                  | Some _ => []
                  end) = []).
    { intros [name a] Hin.
      assert (Hs : map_lookup TimeMethods name <> None)
        by (rewrite (In_map_lookup _ _ _ HM Hin); discriminate).
      apply H in Hs. destruct (map_lookup TimeMethodSafeties name); [reflexivity|contradiction]. }
    assert (E2 : forall x, In x TimeMethodSafeties ->
                 (let '(name, _) := x in
                  match map_lookup TimeMethods name with
                  | None => [NoMethodForDeclaration name]
                  | Some _ => []
                  end) = []).
    { intros [name b] Hin.
      assert (Hs : map_lookup TimeMethodSafeties name <> None)
        by (rewrite (In_map_lookup _ _ _ HS Hin); discriminate).
      apply H in Hs. destruct (map_lookup TimeMethods name); [reflexivity|contradiction]. }
    apply flat_map_nil in E1. apply flat_map_nil in E2. rewrite E1, E2. reflexivity.
Qed.

Lemma TestMethodSafetiesExist_passes_iff_witness :
  TestMethodSafetiesExist sample_Members sample_Safeties = [].
Proof.
  assert (HM : map_wf sample_Members).
  { repeat constructor; cbn; intuition discriminate. }
  assert (HS : map_wf sample_Safeties).
  { repeat constructor; cbn; intuition discriminate. }
  apply (proj2 (TestMethodSafetiesExist_passes_iff member Safety sample_Members
                  sample_Safeties HM HS)).
  intros name. unfold sample_Members, sample_Safeties. cbn [map_lookup].
  destruct (String.eqb "now" name); [split; discriminate|].
  destruct (String.eqb "nanosecond" name); [split; discriminate|tauto].
Defined.

(* ===================================================================== *)
(** * Reports of [RunThread] *)
(* ===================================================================== *)

Section RunThreadReports.

Import startest.

Variable measureResources : ST -> Thread -> resources * ST * Thread.

Lemma gtb_false_le (x y : Z) : x <= y -> (x >? y) = false.
Proof. intros H. rewrite Z.gtb_ltb. apply Z.ltb_ge. exact H. Qed.

(** [RunThread] raises no false alarm: when the measurement has not
    failed, each mean is within the ceiling that applies to it, the
    declared allocations are not below the measured memory where
    [MemSafe] is required, and the model steps are not above the executed
    steps where [CPUSafe] is required, it reports nothing and returns the
    harness as the measurement left it. *)
Theorem RunThread_reports_nothing_within_bounds (st : ST) (res : resources) (st2 : ST)
    (thread : Thread) :
  let st1 := if negb (safetyGiven st) then set_requiredSafety stSafe st else st in
  measureResources st1 (Thread_RequireSafety (requiredSafety st1) zeroThread)
    = (res, st2, thread) ->
  Failed st2 = false ->
  nSum res <> 0 ->
  let meanMeasuredAllocs := memorySum res / nSum res in
  let meanDeclaredAllocs := Thread_Allocs thread / nSum res in
  let meanExecutionSteps := Thread_ExecutionSteps thread / nSum res in
  let meanModelExecutionSteps := modelStepSum res / nSum res in
  (maxAllocs st2 = MaxUint64 \/ meanMeasuredAllocs <= maxAllocs st2) ->
  (Contains (requiredSafety st2) MemSafe = true ->
     meanDeclaredAllocs <= maxAllocs st2 /\ meanMeasuredAllocs <= meanDeclaredAllocs) ->
  (maxExecutionSteps st2 = MaxUint64 \/ meanExecutionSteps <= maxExecutionSteps st2) ->
  (Contains (requiredSafety st2) CPUSafe = true ->
     meanModelExecutionSteps <= maxExecutionSteps st2 /\
     meanModelExecutionSteps <= meanExecutionSteps) ->
  RunThread measureResources st = Some st2.
Proof.
  intros st1 Hm Hf Hn mMeasured mDeclared mSteps mModel Ha Hmem Hs Hcpu.
  unfold RunThread. fold st1. rewrite Hm, Hf.
  apply Z.eqb_neq in Hn. rewrite Hn. cbv zeta.
  fold mMeasured mDeclared mSteps mModel.
  assert (E1 : negb (maxAllocs st2 =? MaxUint64) && (mMeasured >? maxAllocs st2) = false).
  { destruct Ha as [Ha|Ha]; [rewrite Ha; reflexivity|].
    rewrite (gtb_false_le _ _ Ha). apply andb_false_r. }
  rewrite E1.
  assert (E2 : (if Contains (requiredSafety st2) MemSafe
                then if mMeasured >? mDeclared
                     then Errorf (msg_measured_above_declared mMeasured mDeclared)
                            (if mDeclared >? maxAllocs st2
                             then Errorf (msg_declared_above_maximum mDeclared (maxAllocs st2)) st2
                             else st2)
                     else if mDeclared >? maxAllocs st2
                          then Errorf (msg_declared_above_maximum mDeclared (maxAllocs st2)) st2
                          else st2
                else st2) = st2).
  { destruct (Contains (requiredSafety st2) MemSafe); [|reflexivity].
    destruct (Hmem eq_refl) as [Hd Hmd].
    rewrite (gtb_false_le _ _ Hd), (gtb_false_le _ _ Hmd). reflexivity. }
  rewrite E2.
  assert (E3 : negb (maxExecutionSteps st2 =? MaxUint64) && (mSteps >? maxExecutionSteps st2)
               = false).
  { destruct Hs as [Hs|Hs]; [rewrite Hs; reflexivity|].
    rewrite (gtb_false_le _ _ Hs). apply andb_false_r. }
  rewrite E3.
  destruct (Contains (requiredSafety st2) CPUSafe); [|reflexivity].
  destruct (Hcpu eq_refl) as [Hc1 Hc2].
  rewrite (gtb_false_le _ _ Hc1), (gtb_false_le _ _ Hc2). reflexivity.
Qed.

End RunThreadReports.

Lemma RunThread_reports_nothing_within_bounds_witness :
  startest.RunThread
    (startest_run.measureResources W64 quiet_runtime declaring_fn no_step_model) sample_ST
  = Some (startest_run.set_N 100000 (startest.set_requiredSafety stSafe sample_ST)).
Proof.
  apply (RunThread_reports_nothing_within_bounds
           (startest_run.measureResources W64 quiet_runtime declaring_fn no_step_model)
           sample_ST (startest.mkResources 4000 0 110101)
           (startest_run.set_N 100000 (startest.set_requiredSafety stSafe sample_ST))
           (mkThread stSafe (mkMonitor 0 0 1 0 (Some (err_too_much_memory 1))))).
  - vm_compute. reflexivity.
  - reflexivity.
  - discriminate.
  - right. vm_compute. discriminate.
  - intros _. vm_compute. split; discriminate.
  - left. reflexivity.
  - intros _. vm_compute. split; discriminate.
Defined.
